(** * pwdatav3: ASP.NET Core compatible password hashes

    A shallow embedding of the Go package [pwdatav3].  The repository holds
    two near-duplicate implementations of the same credential record:

    - [pwhash.go]: type [PWHash] with [MarshalBinary], [UnmarshalBinary],
      [UnmarshalText], [New] and [Verify];
    - [pwdatav3.go]: type [PWDataV3] with [pack], [unpack], [fromBase64],
      [NewFromPassword], [Must], [VerifyPassword] and [VerifyHash].

    Each is embedded in a module of its own ([pwhash], [pwdatav3]).  Go's
    [int] is taken to be 64 bits wide (amd64, arm64); [uint32] values are
    integers of [Z] with the wrap-around written out; a [[]byte] is a
    [list byte]; a method that assigns to its receiver returns the
    receiver's final state next to its result. *)

From Stdlib Require Import ZArith List Lia Bool String Ascii DecimalString Btauto.
From coqutil Require Import Byte Z.bitblast.
Import ListNotations.
Local Open Scope Z_scope.

(** ** Errors

    The four sentinel values both files declare, and the errors built by
    [fmt.Errorf(prefix + "%v", err)], which keep nothing of [err] but its
    message. *)

Inductive error : Type :=
| ErrCorrupt
| ErrVersion
| ErrFunction
| ErrParameter
| Errorf (prefix : string) (detail : string).

(** [err.Error()] *)
Definition Error (e : error) : string :=
  match e with
  | ErrCorrupt => "malformed hashed value"
  | ErrVersion => "unknown hashed format version"
  | ErrFunction => "unknown hash function"
  | ErrParameter => "invalid hash function parameter"
  | Errorf prefix detail => prefix ++ detail
  end%string.

(** ** Go values: panics, slices, fixed-width integers *)

Inductive panic : Type :=
| IndexOutOfRange
| SliceBoundsOutOfRange
| NilDereference
| PanicError (e : error).

Inductive outcome (A : Type) : Type :=
| Returns (a : A)
| Panics (p : panic).

Arguments Returns {A} a.
Arguments Panics {A} p.

Definition bind {A B : Type} (m : outcome A) (k : A -> outcome B) : outcome B :=
  match m with
  | Returns a => k a
  | Panics p => Panics p
  end.

Notation "x <- m ;; k" := (bind m (fun x => k))
  (at level 61, m at next level, right associativity).

(** [uint32(x)]: conversion to a 32-bit unsigned integer keeps the low 32
    bits; arithmetic on [uint32] operands wraps the same way. *)
Definition uint32 (x : Z) : Z := x mod 2 ^ 32.

(** The values of Go's [int], 64 bits wide. *)
Definition is_int (x : Z) : Prop := - 2 ^ 63 <= x < 2 ^ 63.

(** [int(x)] for a [uint32] [x]: value preserving, [int] being 64 bits. *)
Definition int_of_uint32 (x : Z) : Z := x.

(** [len(s)] *)
Definition len {A : Type} (s : list A) : Z := Z.of_nat (List.length s).

(** [make([]byte, n)] *)
Definition make (n : Z) : list byte := repeat Byte.x00 (Z.to_nat n).

(** [s[i]] *)
Definition index (s : list byte) (i : Z) : outcome byte :=
  if (0 <=? i) && (i <? len s)
  then Returns (nth (Z.to_nat i) s Byte.x00)
  else Panics IndexOutOfRange.

(** [s[i:]] *)
Definition slice_from (s : list byte) (i : Z) : outcome (list byte) :=
  if (0 <=? i) && (i <=? len s)
  then Returns (skipn (Z.to_nat i) s)
  else Panics SliceBoundsOutOfRange.

(** [s[i:j]] (the capacity of [s] is taken to be its length) *)
Definition slice (s : list byte) (i j : Z) : outcome (list byte) :=
  if (0 <=? i) && (i <=? j) && (j <=? len s)
  then Returns (firstn (Z.to_nat (j - i)) (skipn (Z.to_nat i) s))
  else Panics SliceBoundsOutOfRange.

(** [s[i] = v] *)
Definition store (s : list byte) (i : Z) (v : byte) : outcome (list byte) :=
  if (0 <=? i) && (i <? len s)
  then Returns (firstn (Z.to_nat i) s ++ v :: skipn (S (Z.to_nat i)) s)
  else Panics IndexOutOfRange.

(** A write through the sub-slice [s[i:]] lands in [s]: [write] is given
    the sub-slice and returns its new contents. *)
Definition update_from (s : list byte) (i : Z)
  (write : list byte -> outcome (list byte)) : outcome (list byte) :=
  sub <- slice_from s i ;;
  sub' <- write sub ;;
  Returns (firstn (Z.to_nat i) s ++ sub').

(** [copy(dst, src)]: the new contents of [dst]; [min(len(dst), len(src))]
    bytes are copied. *)
Definition copy (dst src : list byte) : list byte :=
  firstn (List.length dst) src ++ skipn (List.length src) dst.

(** [bytes.Clone(b)]: a fresh slice with the contents of [b]. *)
Definition Clone (b : list byte) : list byte := b.

(** [[]byte(s)] for a string [s] *)
Definition bytes_of_string (s : string) : list byte := list_byte_of_string s.

(** *** encoding/binary, big endian *)

(** The four bytes [PutUint32] writes: [byte(v >> 24)], [byte(v >> 16)],
    [byte(v >> 8)], [byte(v)]. *)
Definition be32 (v : Z) : list byte :=
  [ byte.of_Z (Z.shiftr v 24); byte.of_Z (Z.shiftr v 16);
    byte.of_Z (Z.shiftr v 8); byte.of_Z v ].

(** [binary.BigEndian.PutUint32(b, v)]: the new contents of [b]. *)
Definition PutUint32 (b : list byte) (v : Z) : outcome (list byte) :=
  match b with
  | _ :: _ :: _ :: _ :: rest => Returns (be32 v ++ rest)
  | _ => Panics IndexOutOfRange
  end.

(** [binary.BigEndian.Uint32(b)]:
    [uint32(b[3]) | uint32(b[2])<<8 | uint32(b[1])<<16 | uint32(b[0])<<24] *)
Definition Uint32 (b : list byte) : outcome Z :=
  match b with
  | b0 :: b1 :: b2 :: b3 :: _ =>
      Returns (Z.lor (Z.lor (Z.lor (byte.unsigned b3)
                                   (Z.shiftl (byte.unsigned b2) 8))
                            (Z.shiftl (byte.unsigned b1) 16))
                     (Z.shiftl (byte.unsigned b0) 24))
  | _ => Panics IndexOutOfRange
  end.

(** *** crypto/subtle *)

(** [subtle.ConstantTimeByteEq(x, y)]: [int((uint32(x^y) - 1) >> 31)] *)
Definition ConstantTimeByteEq (x y : byte) : Z :=
  Z.shiftr (uint32 (Z.lxor (byte.unsigned x) (byte.unsigned y) - 1)) 31.

(** The loop of [ConstantTimeCompare]: [v |= x[i] ^ y[i]] for every [i]. *)
Fixpoint xor_fold (v : byte) (x y : list byte) : byte :=
  match x, y with
  | xi :: x', yi :: y' =>
      xor_fold (byte.of_Z (Z.lor (byte.unsigned v)
                                 (Z.lxor (byte.unsigned xi) (byte.unsigned yi))))
               x' y'
  | _, _ => v
  end.

(** [subtle.ConstantTimeCompare(x, y)]: 0 at once when the lengths differ,
    else one pass over both slices. *)
Definition ConstantTimeCompare (x y : list byte) : Z :=
  if negb (len x =? len y) then 0
  else ConstantTimeByteEq (xor_fold Byte.x00 x y) Byte.x00.

(** ** Constants shared by both files *)

Definition v3 : Z := 1.
Definition prfSHA256 : Z := 1.
Definition DefaultIter : Z := 10000.
Definition DefaultSaltLen : Z := 16.
Definition hdrLength : Z := 1 + 3 * 4.
Definition sha256_Size : Z := 32.

(** ** The world outside the package

    [crypto/rand]: what the next read of the process-wide source yields,
    either a stream of bytes or an error with its message. *)
Inductive rand_source : Type :=
| RandBytes (stream : nat -> byte)
| RandFails (message : string).

(** [io.ReadFull(rand.Reader, buf)] / [rand.Read(buf)]: the filled buffer,
    or the error. *)
Definition rand_fill (rnd : rand_source) (buf : list byte) : list byte + string :=
  match rnd with
  | RandBytes stream => inl (map stream (seq 0 (List.length buf)))
  | RandFails message => inr message
  end.

(** [base64.CorruptInputError]: the offset of the offending input byte. *)
Definition CorruptInputError : Type := Z.

Definition CorruptInputError_Error (e : CorruptInputError) : string :=
  ("illegal base64 data at input byte " ++ NilZero.string_of_int (Z.to_int e))%string.

(** What a call observably does besides returning: the key derivations and
    constant-time comparisons it runs, and its reads of the random source,
    in order. *)
Inductive event : Type :=
| EvRandRead (n : Z)
| EvDerive (password salt : list byte) (iter keyLen : Z)
| EvCompare (x y : list byte).

Definition traced (A : Type) : Type := (list event * outcome A)%type.

Definition tret {A : Type} (a : A) : traced A := ([], Returns a).

Definition tbind {A B : Type} (m : traced A) (k : A -> traced B) : traced B :=
  match m with
  | (t, Returns a) => let (t', r) := k a in (t ++ t', r)
  | (t, Panics p) => (t, Panics p)
  end.

Definition lift {A : Type} (m : outcome A) : traced A := ([], m).

Notation "x <~ m ;; k" := (tbind m (fun x => k))
  (at level 61, m at next level, right associativity).

Definition events {A : Type} (m : traced A) : list event := fst m.

Definition result {A : Type} (m : traced A) : outcome A := snd m.

(** A nil pointer is [None]; reading a field through it panics. *)
Definition deref {A : Type} (p : option A) : outcome A :=
  match p with
  | Some a => Returns a
  | None => Panics NilDereference
  end.

(** [subtle.ConstantTimeCompare], recorded. *)
Definition constant_time_compare (x y : list byte) : traced Z :=
  ([EvCompare x y], Returns (ConstantTimeCompare x y)).

(** A read from the random source into [buf], recorded. *)
Definition rand_read (rnd : rand_source) (buf : list byte) : traced (list byte + string) :=
  ([EvRandRead (len buf)], Returns (rand_fill rnd buf)).

(** ** pwhash.go *)

Module pwhash.

Record PWHash : Type := mkPWHash {
  ver : byte;        (* uint8, 0x01 => v3 *)
  prf : Z;           (* uint32, 1 => sha256 *)
  iter : Z;          (* uint32 *)
  salt : list byte;
  hash : list byte
}.

(** [func (pd *PWHash) MarshalBinary() ([]byte, error)] *)
Definition MarshalBinary (pd : PWHash) : outcome (list byte * option error) :=
  let out := make (hdrLength + len (salt pd) + len (hash pd)) in
  out <- store out 0 (ver pd) ;;
  out <- update_from out 1 (fun b => PutUint32 b (prf pd)) ;;
  out <- update_from out (1 + 4) (fun b => PutUint32 b (iter pd)) ;;
  out <- update_from out (1 + 4 + 4) (fun b => PutUint32 b (uint32 (len (salt pd)))) ;;
  out <- update_from out hdrLength (fun b => Returns (copy b (salt pd))) ;;
  out <- update_from out (hdrLength + len (salt pd)) (fun b => Returns (copy b (hash pd))) ;;
  Returns (out, None).

(** [func (pd *PWHash) UnmarshalBinary(a []byte) error]: the final state
    of [pd] and the error returned. *)
Definition UnmarshalBinary (pd : PWHash) (a : list byte) : outcome (PWHash * option error) :=
  (* check values before assigning anything to pd *)
  if len a <? hdrLength then Returns (pd, Some ErrCorrupt) else
  ver <- index a 0 ;;
  if negb (byte.unsigned ver =? v3) then Returns (pd, Some ErrVersion) else
  a1 <- slice_from a 1 ;;
  prf <- Uint32 a1 ;;
  if negb (prf =? prfSHA256) then Returns (pd, Some ErrFunction) else
  a5 <- slice_from a (1 + 4) ;;
  iter <- Uint32 a5 ;;
  if (iter <? 1) || (iter >? 100000) then Returns (pd, Some ErrParameter) else
  a9 <- slice_from a (1 + 4 + 4) ;;
  saltlen <- Uint32 a9 ;;
  if (saltlen <? 1) || (saltlen >? 64) then Returns (pd, Some ErrParameter) else
  if negb (uint32 (hdrLength + saltlen + sha256_Size) =? uint32 (len a))
  then Returns (pd, Some ErrCorrupt) else
  salt <- slice a hdrLength (uint32 (hdrLength + saltlen)) ;;
  hash <- slice_from a (uint32 (hdrLength + saltlen)) ;;
  Returns ({| ver := ver; prf := prf; iter := iter;
              salt := Clone salt; hash := Clone hash |}, None).

Section Libraries.

(** [pbkdf2.Key(password, salt, iter, keyLen, sha256.New)] of
    golang.org/x/crypto, a black box. *)
Variable pbkdf2_Key : list byte -> list byte -> Z -> Z -> list byte.

(** [base64.StdEncoding.Decode(out, text)] on a large enough [out]: the
    bytes written, [out[:n]], and the error. *)
Variable StdEncoding_Decode : list byte -> list byte * option CorruptInputError.

(** [base64.StdEncoding.Encode(out, p)] on an [out] of
    [EncodedLen(len(p))] bytes: the contents of [out] afterwards. *)
Variable StdEncoding_Encode : list byte -> list byte.

(** [func hashPW(password string, salt []byte, iter int) []byte] *)
Definition hashPW (password : string) (salt : list byte) (iter : Z) : traced (list byte) :=
  ([EvDerive (bytes_of_string password) salt iter sha256_Size],
   Returns (pbkdf2_Key (bytes_of_string password) salt iter sha256_Size)).

(** [func New(pw string, iter int) ( *PWHash, error)] *)
Definition New (rnd : rand_source) (pw : string) (iter : Z)
  : traced (option PWHash * option error) :=
  let salt := make DefaultSaltLen in
  r <~ rand_read rnd salt ;;
  match r with
  | inr err => tret (None, Some (Errorf "cannot make salt value: " err))
  | inl salt =>
      dk <~ hashPW pw salt iter ;;
      tret (Some {| ver := byte.of_Z v3; prf := prfSHA256; iter := uint32 iter;
                    salt := salt; hash := dk |}, None)
  end.

(** [func (pd *PWHash) Verify(pw string) bool] *)
Definition Verify (pd : PWHash) (pw : string) : traced bool :=
  dk <~ hashPW pw (salt pd) (int_of_uint32 (iter pd)) ;;
  c <~ constant_time_compare (hash pd) dk ;;
  tret (c =? 1).

(** [func (pd *PWHash) UnmarshalText(text []byte) error] *)
Definition UnmarshalText (pd : PWHash) (text : list byte) : outcome (PWHash * option error) :=
  match StdEncoding_Decode text with
  | (_, Some err) =>
      Returns (pd, Some (Errorf "password encoding: " (CorruptInputError_Error err)))
  | (out, None) => UnmarshalBinary pd out
  end.

(** [func (pd *PWHash) MarshalText() ([]byte, error)] *)
Definition MarshalText (pd : PWHash) : outcome (list byte * option error) :=
  r <- MarshalBinary pd ;;
  let p := fst r in
  let out := StdEncoding_Encode p in
  Returns (out, None).

(** [func (pd *PWHash) String() string] *)
Definition String (pd : PWHash) : outcome string :=
  r <- MarshalText pd ;;     (* no error return *)
  let a := fst r in
  Returns (string_of_list_byte a).

End Libraries.

End pwhash.

(** ** pwdatav3.go *)

Module pwdatav3.

Record PWDataV3 : Type := mkPWDataV3 {
  ver : byte;        (* uint8, 0x01 *)
  prf : Z;           (* uint32, 1 => sha256 *)
  iter : Z;          (* uint32 *)
  salt : list byte;
  hash : list byte
}.

(** [&PWDataV3{}]: every field at its zero value. *)
Definition zero : PWDataV3 :=
  {| ver := Byte.x00; prf := 0; iter := 0; salt := []; hash := [] |}.

Definition set_ver (d : PWDataV3) (v : byte) : PWDataV3 :=
  {| ver := v; prf := prf d; iter := iter d; salt := salt d; hash := hash d |}.

Definition set_prf (d : PWDataV3) (v : Z) : PWDataV3 :=
  {| ver := ver d; prf := v; iter := iter d; salt := salt d; hash := hash d |}.

Definition set_iter (d : PWDataV3) (v : Z) : PWDataV3 :=
  {| ver := ver d; prf := prf d; iter := v; salt := salt d; hash := hash d |}.

Definition set_salt (d : PWDataV3) (v : list byte) : PWDataV3 :=
  {| ver := ver d; prf := prf d; iter := iter d; salt := v; hash := hash d |}.

Definition set_hash (d : PWDataV3) (v : list byte) : PWDataV3 :=
  {| ver := ver d; prf := prf d; iter := iter d; salt := salt d; hash := v |}.

(** [func New(salt []byte, iter int, hash []byte) *PWDataV3] *)
Definition New (salt : list byte) (iter : Z) (hash : list byte) : PWDataV3 :=
  let saltc := copy (make (len salt)) salt in
  let hashc := copy (make (len hash)) hash in
  {| ver := byte.of_Z v3; prf := prfSHA256; iter := uint32 iter;
     salt := saltc; hash := hashc |}.

(** [func Must(pw *PWDataV3, err error) *PWDataV3] *)
Definition Must (r : option PWDataV3 * option error) : outcome (option PWDataV3) :=
  match r with
  | (_, Some err) => Panics (PanicError err)
  | (pw, None) => Returns pw
  end.

(** [func (d *PWDataV3) unpack(a []byte) error]: the final state of [d]
    and the error returned. *)
Definition unpack (d : PWDataV3) (a : list byte) : outcome (PWDataV3 * option error) :=
  if len a <? hdrLength then Returns (d, Some ErrCorrupt) else
  v <- index a 0 ;;
  let d := set_ver d v in
  if negb (byte.unsigned (ver d) =? v3) then Returns (d, Some ErrVersion) else
  a1 <- slice_from a 1 ;;
  v <- Uint32 a1 ;;
  let d := set_prf d v in
  if negb (prf d =? prfSHA256) then Returns (d, Some ErrFunction) else
  a5 <- slice_from a (1 + 4) ;;
  v <- Uint32 a5 ;;
  let d := set_iter d v in
  if iter d >? 100000 then Returns (d, Some ErrParameter) else
  a9 <- slice_from a (1 + 4 + 4) ;;
  saltlen <- Uint32 a9 ;;
  if saltlen >? 64 then Returns (d, Some ErrParameter) else
  if uint32 (hdrLength + saltlen) >=? uint32 (len a) then Returns (d, Some ErrCorrupt) else
  s <- slice a hdrLength (uint32 (hdrLength + saltlen)) ;;
  let d := set_salt d s in
  h <- slice_from a (uint32 (hdrLength + saltlen)) ;;
  let d := set_hash d h in
  Returns (d, None).

(** [func (d *PWDataV3) pack() []byte] *)
Definition pack (d : PWDataV3) : outcome (list byte) :=
  let out := make (hdrLength + len (salt d) + len (hash d)) in
  out <- store out 0 (ver d) ;;
  out <- update_from out 1 (fun b => PutUint32 b (prf d)) ;;
  out <- update_from out (1 + 4) (fun b => PutUint32 b (iter d)) ;;
  out <- update_from out (1 + 4 + 4) (fun b => PutUint32 b (uint32 (len (salt d)))) ;;
  out <- update_from out hdrLength (fun b => Returns (copy b (salt d))) ;;
  out <- update_from out (hdrLength + len (salt d)) (fun b => Returns (copy b (hash d))) ;;
  Returns out.

Section Libraries.

(** [pbkdf2.Key(password, salt, iter, keyLen, sha256.New)] of
    golang.org/x/crypto, a black box. *)
Variable pbkdf2_Key : list byte -> list byte -> Z -> Z -> list byte.

(** [base64.StdEncoding.DecodeString(s)], given the bytes of [s]: the
    decoded bytes and the error. *)
Variable StdEncoding_Decode : list byte -> list byte * option CorruptInputError.

(** [base64.StdEncoding.EncodeToString(p)], as the bytes of the string. *)
Variable StdEncoding_Encode : list byte -> list byte.

(** [func hashPW(password string, salt []byte, iter int) []byte] *)
Definition hashPW (password : string) (salt : list byte) (iter : Z) : traced (list byte) :=
  ([EvDerive (bytes_of_string password) salt iter sha256_Size],
   Returns (pbkdf2_Key (bytes_of_string password) salt iter sha256_Size)).

(** [func NewFromPassword(pw string, iter int) ( *PWDataV3, error)] *)
Definition NewFromPassword (rnd : rand_source) (pw : string) (iter : Z)
  : traced (option PWDataV3 * option error) :=
  let salt := make DefaultSaltLen in
  r <~ rand_read rnd salt ;;
  match r with
  | inr err => tret (None, Some (Errorf "cannot make salt value: " err))
  | inl salt =>
      dk <~ hashPW pw salt iter ;;
      tret (Some {| ver := byte.of_Z v3; prf := prfSHA256; iter := uint32 iter;
                    salt := salt; hash := dk |}, None)
  end.

(** [func (d *PWDataV3) VerifyPassword(pw string) bool] *)
Definition VerifyPassword (d : PWDataV3) (pw : string) : traced bool :=
  dk <~ hashPW pw (salt d) (int_of_uint32 (iter d)) ;;
  c <~ constant_time_compare (hash d) dk ;;
  tret (c =? 1).

(** [func fromBase64(s string) ( *PWDataV3, error)] *)
Definition fromBase64 (s : string) : outcome (option PWDataV3 * option error) :=
  match StdEncoding_Decode (bytes_of_string s) with
  | (_, Some err) =>
      Returns (None, Some (Errorf "pw data: " (CorruptInputError_Error err)))
  | (out, None) =>
      let pwd := zero in
      r <- unpack pwd out ;;
      match r with
      | (_, Some err) => Returns (None, Some err)
      | (pwd, None) => Returns (Some pwd, None)
      end
  end.

(** [func VerifyHash(hash, pw string) (bool, error)] *)
Definition VerifyHash (rnd : rand_source) (hash pw : string) : traced (bool * option error) :=
  r <~ lift (fromBase64 hash) ;;
  match r with
  | (_, Some err) =>
      n <~ NewFromPassword rnd "" DefaultIter ;;
      d <~ lift (Must n) ;;
      d <~ lift (deref d) ;;
      c <~ constant_time_compare (pwdatav3.hash d) (pwdatav3.hash d) ;;
      tret (negb (c =? 1), Some err)     (* ie, false *)
  | (d, None) =>
      d <~ lift (deref d) ;;
      dk <~ hashPW pw (salt d) (int_of_uint32 (iter d)) ;;
      c <~ constant_time_compare (pwdatav3.hash d) dk ;;
      tret (c =? 1, None)
  end.

(** [func (d *PWDataV3) toBase64() string] *)
Definition toBase64 (d : PWDataV3) : outcome string :=
  p <- pack d ;;
  Returns (string_of_list_byte (StdEncoding_Encode p)).

(** [func (d *PWDataV3) String() string] *)
Definition String (d : PWDataV3) : outcome string := toBase64 d.

End Libraries.

End pwdatav3.

(** ** encoding/base64

    [base64.StdEncoding.Decode] of Go's standard library (standard
    alphabet, padded, not strict), as one pass over the input, and
    [base64.StdEncoding.Encode].  The modules above take the decoder and the
    encoder as parameters; these instantiate them on concrete inputs. *)

Module base64.

Definition decodeMap (c : byte) : option Z :=
  let u := byte.unsigned c in
  if (65 <=? u) && (u <=? 90) then Some (u - 65)          (* A-Z *)
  else if (97 <=? u) && (u <=? 122) then Some (u - 71)    (* a-z *)
  else if (48 <=? u) && (u <=? 57) then Some (u + 4)      (* 0-9 *)
  else if u =? 43 then Some 62                            (* + *)
  else if u =? 47 then Some 63                            (* / *)
  else None.

Definition is_newline (c : byte) : bool :=
  (byte.unsigned c =? 10) || (byte.unsigned c =? 13).

Definition is_padding (c : byte) : bool := byte.unsigned c =? 61.

(** [for si < len(src) && (src[si] == '\n' || src[si] == '\r') { si++ }] *)
Fixpoint skip_newlines (src : list byte) (si : Z) : list byte * Z :=
  match src with
  | c :: rest => if is_newline c then skip_newlines rest (si + 1) else (src, si)
  | [] => ([], si)
  end.

(** The bytes a quantum of [dlen] six-bit values yields: [dlen - 1] of the
    three bytes of [d0<<18 | d1<<12 | d2<<6 | d3]. *)
Definition quantum_bytes (dbuf : list Z) : list byte :=
  let d := fun k => nth k dbuf 0 in
  let val := Z.lor (Z.lor (Z.lor (Z.shiftl (d 0%nat) 18) (Z.shiftl (d 1%nat) 12))
                          (Z.shiftl (d 2%nat) 6)) (d 3%nat) in
  firstn (List.length dbuf - 1)
         [byte.of_Z (Z.shiftr val 16); byte.of_Z (Z.shiftr val 8); byte.of_Z val].

(** A padding character was read with [dbuf] filled so far; [rest] is the
    input after it, starting at offset [si]. *)
Definition padding (dbuf : list Z) (rest : list byte) (si : Z) (out : list byte)
  : list byte * option CorruptInputError :=
  match List.length dbuf with
  | 0%nat | 1%nat => (out, Some (si - 1))           (* incorrect padding *)
  | j =>
      let second :=
        if Nat.eqb j 2 then
          (* "==" is expected, the first "=" is already consumed *)
          let (r, si) := skip_newlines rest si in
          match r with
          | [] => inr si                             (* not enough padding *)
          | c :: r' => if is_padding c then inl (r', si + 1) else inr (si - 1)
          end
        else inl (rest, si) in
      match second with
      | inr e => (out, Some e)
      | inl (r, si) =>
          let (r, si) := skip_newlines r si in
          match r with
          | [] => (out ++ quantum_bytes dbuf, None)
          | _ :: _ => (out ++ quantum_bytes dbuf, Some si)   (* trailing garbage *)
          end
      end
  end.

(** The decoding loop: [si] is the offset of the head of [src], [dbuf] the
    six-bit values of the quantum under way, [out] the bytes written. *)
Fixpoint decode (src : list byte) (si : Z) (dbuf : list Z) (out : list byte)
  : list byte * option CorruptInputError :=
  match src with
  | [] =>
      match dbuf with
      | [] => (out, None)
      | _ :: _ => (out, Some (si - len dbuf))
      end
  | c :: rest =>
      match decodeMap c with
      | Some v =>
          let dbuf := dbuf ++ [v] in
          if Nat.eqb (List.length dbuf) 4
          then decode rest (si + 1) [] (out ++ quantum_bytes dbuf)
          else decode rest (si + 1) dbuf out
      | None =>
          if is_newline c then decode rest (si + 1) dbuf out
          else if negb (is_padding c) then (out, Some si)
          else padding dbuf rest (si + 1) out
      end
  end.

Definition StdEncoding_Decode (src : list byte) : list byte * option CorruptInputError :=
  decode src 0 [] [].

(** [enc.encode[v]] for the standard alphabet. *)
Definition encodeChar (v : Z) : byte :=
  byte.of_Z (if v <? 26 then 65 + v
             else if v <? 52 then 71 + v
             else if v <? 62 then v - 4
             else if v =? 62 then 43 else 47).

(** [base64.StdEncoding.Encode]: four characters for every three bytes,
    and a padded last group for one or two bytes left over. *)
Fixpoint encode (src : list byte) : list byte :=
  match src with
  | [] => []
  | [s0] =>
      let val := Z.shiftl (byte.unsigned s0) 16 in
      [ encodeChar (Z.land (Z.shiftr val 18) 63); encodeChar (Z.land (Z.shiftr val 12) 63);
        byte.of_Z 61; byte.of_Z 61 ]
  | [s0; s1] =>
      let val := Z.lor (Z.shiftl (byte.unsigned s0) 16) (Z.shiftl (byte.unsigned s1) 8) in
      [ encodeChar (Z.land (Z.shiftr val 18) 63); encodeChar (Z.land (Z.shiftr val 12) 63);
        encodeChar (Z.land (Z.shiftr val 6) 63); byte.of_Z 61 ]
  | s0 :: s1 :: s2 :: rest =>
      let val := Z.lor (Z.lor (Z.shiftl (byte.unsigned s0) 16) (Z.shiftl (byte.unsigned s1) 8))
                       (byte.unsigned s2) in
      encodeChar (Z.land (Z.shiftr val 18) 63) :: encodeChar (Z.land (Z.shiftr val 12) 63)
      :: encodeChar (Z.land (Z.shiftr val 6) 63) :: encodeChar (Z.land val 63)
      :: encode rest
  end.

Definition StdEncoding_Encode (src : list byte) : list byte := encode src.

End base64.

(** ** Vocabulary of the statements *)

(** The code's [|] and [<<] on four bytes. *)
Definition be_lor (u0 u1 u2 u3 : Z) : Z :=
  Z.lor (Z.lor (Z.lor u3 (Z.shiftl u2 8)) (Z.shiftl u1 16)) (Z.shiftl u0 24).

(** The number four bytes denote, most significant byte first. *)
Definition be_value (b0 b1 b2 b3 : byte) : Z :=
  byte.unsigned b0 * 2 ^ 24 + byte.unsigned b1 * 2 ^ 16
  + byte.unsigned b2 * 2 ^ 8 + byte.unsigned b3.

(** The layout [MarshalBinary] documents:
    [ver[1], prf[4], iter[4], saltLen[4], salt[n], hashed[sha256.Size]],
    every 32-bit integer big-endian. *)
Definition layout (ver : byte) (prf iter : Z) (salt hash : list byte) : list byte :=
  ver :: be32 prf ++ be32 iter ++ be32 (uint32 (len salt)) ++ salt ++ hash.

(** A valid credential record: version 1, PRF 1, 1 to 100000 iterations,
    1 to 64 bytes of salt, a subkey of 32 bytes. *)
Definition valid_fields (ver : byte) (prf iter : Z) (salt hash : list byte) : bool :=
  (byte.unsigned ver =? 1) && (prf =? 1)
  && (1 <=? iter) && (iter <=? 100000)
  && (1 <=? len salt) && (len salt <=? 64)
  && (len hash =? 32).

Definition valid_PWHash (r : pwhash.PWHash) : bool :=
  valid_fields (pwhash.ver r) (pwhash.prf r) (pwhash.iter r) (pwhash.salt r) (pwhash.hash r).

Definition valid_PWDataV3 (r : pwdatav3.PWDataV3) : bool :=
  valid_fields (pwdatav3.ver r) (pwdatav3.prf r) (pwdatav3.iter r)
               (pwdatav3.salt r) (pwdatav3.hash r).

(** [out] holds the big-endian 32-bit integer [v] in its four bytes from
    offset [off]. *)
Definition be_field (out : list byte) (off v : Z) : Prop :=
  exists b0 b1 b2 b3,
    slice out off (off + 4) = Returns [b0; b1; b2; b3] /\ be_value b0 b1 b2 b3 = v.

(** The layout by offsets: version at 0, PRF at 1, iterations at 5, salt
    length at 9, the salt at 13, the subkey right after the salt and up to
    the end. *)
Definition laid_out (out : list byte) (ver : byte) (prf iter : Z) (salt hash : list byte)
  : Prop :=
  index out 0 = Returns ver
  /\ be_field out 1 prf
  /\ be_field out 5 iter
  /\ be_field out 9 (len salt)
  /\ slice out 13 (13 + len salt) = Returns salt
  /\ slice_from out (13 + len salt) = Returns hash.

(** Sample values: the successful entry of the table of [TestPWHash], one
    byte of salt [0xEE] and one iteration, with a subkey of 32 bytes. *)
Definition sample_hash : list byte := map byte.of_Z
  [ 1; 2; 3; 4; 5; 6; 7; 8; 9; 10; 11; 12; 13; 14; 15; 16;
    17; 18; 19; 20; 21; 22; 23; 24; 25; 26; 27; 28; 29; 30; 31; 32 ].

Definition sample_PWHash : pwhash.PWHash :=
  pwhash.mkPWHash Byte.x01 1 1 [Byte.xee] sample_hash.

Definition sample_PWDataV3 : pwdatav3.PWDataV3 :=
  pwdatav3.mkPWDataV3 Byte.x01 1 1 [Byte.xee] sample_hash.

(** The encoding of the sample record: the header, the salt, the subkey. *)
Definition sample_bytes : list byte :=
  map byte.of_Z [1; 0; 0; 0; 1; 0; 0; 0; 1; 0; 0; 0; 1; 238] ++ sample_hash.

(** A stand-in for [pbkdf2.Key] on concrete inputs: whatever it is given,
    the sample subkey cut to [keyLen] bytes. *)
Definition sample_kdf (password salt : list byte) (iter keyLen : Z) : list byte :=
  firstn (Z.to_nat keyLen) sample_hash.

(** The sample record as text, and a record that only [unpack] accepts
    (its subkey is the single byte [0x2A]) as text. *)
Definition sample_text : string :=
  "AQAAAAEAAAABAAAAAe4BAgMEBQYHCAkKCwwNDg8QERITFBUWFxgZGhscHR4fIA==".


(** The header fields are [uint32] values, and the salt is short enough for
    its length to be one. *)
Definition uint32_fields (prf iter : Z) (salt : list byte) : Prop :=
  0 <= prf < 2 ^ 32 /\ 0 <= iter < 2 ^ 32 /\ len salt < 2 ^ 32.

(** [var pwd PWHash]: every field at its zero value. *)
Definition zero_PWHash : pwhash.PWHash := pwhash.mkPWHash Byte.x00 0 0 [] [].

(** Decoding what was just encoded: [UnmarshalBinary] into [pd] of the
    bytes of [MarshalBinary], [unpack] into [d0] of the bytes of [pack], and
    [UnmarshalBinary] of the bytes of [pack]. *)
Definition decode_encoded (pd r : pwhash.PWHash) : outcome (pwhash.PWHash * option error) :=
  out <- pwhash.MarshalBinary r ;; pwhash.UnmarshalBinary pd (fst out).

Definition unpack_packed (d0 r : pwdatav3.PWDataV3)
  : outcome (pwdatav3.PWDataV3 * option error) :=
  out <- pwdatav3.pack r ;; pwdatav3.unpack d0 out.

Definition decode_packed (pd : pwhash.PWHash) (d : pwdatav3.PWDataV3)
  : outcome (pwhash.PWHash * option error) :=
  out <- pwdatav3.pack d ;; pwhash.UnmarshalBinary pd out.

(** The error kinds of the design: a text-layer (base64) failure counts as
    [KindCorrupt], a failed read of the random source as
    [KindRandomSourceFailure]. *)
Inductive error_kind : Type :=
| KindCorrupt
| KindVersion
| KindFunction
| KindParameter
| KindRandomSourceFailure.

Definition kind_of (e : error) : error_kind :=
  match e with
  | ErrCorrupt => KindCorrupt
  | ErrVersion => KindVersion
  | ErrFunction => KindFunction
  | ErrParameter => KindParameter
  | Errorf prefix _ =>
      if String.eqb prefix "cannot make salt value: "
      then KindRandomSourceFailure else KindCorrupt
  end.

(** The repository's first test credential, and the same with two
    characters appended, which its tests expect to be refused at input
    byte 84. *)
Definition josephine : string :=
  "AQAAAAEAACcQAAAAEO4k5r1SgFuCYAS8xfu/Mnu5iZUqh+DgSRU4IyJpD+mVo4KdbI1BwiF3KcY1V6AapQ==".

Definition josephine_garbled : string := (josephine ++ "??")%string.

(** * Properties *)

(** ** Slices *)

Section Slices.

Lemma len_nonneg {A : Type} (s : list A) : 0 <= len s.
Proof. unfold len. lia. Qed.

Lemma len_cons {A : Type} (x : A) (s : list A) : len (x :: s) = 1 + len s.
Proof. unfold len. cbn [List.length]. lia. Qed.

Lemma len_app {A : Type} (s t : list A) : len (s ++ t) = len s + len t.
Proof. unfold len. rewrite length_app. lia. Qed.

Lemma len_be32 v : len (be32 v) = 4.
Proof. reflexivity. Qed.

Lemma make_add n m : 0 <= n -> 0 <= m -> make (n + m) = make n ++ make m.
Proof.
  intros Hn Hm. unfold make. rewrite Z2Nat.inj_add by assumption.
  apply repeat_app.
Qed.

Lemma slice_from_app (pre s : list byte) (i : Z) :
  i = len pre -> slice_from (pre ++ s) i = Returns s.
Proof.
  intros ->. unfold slice_from.
  pose proof (len_nonneg pre) as Hp. pose proof (len_nonneg s) as Hs.
  rewrite len_app.
  replace (0 <=? len pre) with true by (symmetry; apply Z.leb_le; lia).
  replace (len pre <=? len pre + len s) with true by (symmetry; apply Z.leb_le; lia).
  cbn [andb]. unfold len. rewrite Nat2Z.id.
  now rewrite skipn_app, skipn_all, Nat.sub_diag.
Qed.

Lemma slice_app (pre s t : list byte) (i j : Z) :
  i = len pre -> j = len pre + len s -> slice (pre ++ s ++ t) i j = Returns s.
Proof.
  intros -> ->. unfold slice.
  pose proof (len_nonneg pre) as Hp. pose proof (len_nonneg s) as Hs.
  pose proof (len_nonneg t) as Ht.
  rewrite !len_app.
  replace (0 <=? len pre) with true by (symmetry; apply Z.leb_le; lia).
  replace (len pre <=? len pre + len s) with true by (symmetry; apply Z.leb_le; lia).
  replace (len pre + len s <=? len pre + (len s + len t)) with true
    by (symmetry; apply Z.leb_le; lia).
  cbn [andb]. replace (len pre + len s - len pre) with (len s) by lia.
  unfold len. rewrite !Nat2Z.id.
  rewrite skipn_app, skipn_all, Nat.sub_diag. cbn [skipn app].
  now rewrite firstn_app, firstn_all, Nat.sub_diag, firstn_O, app_nil_r.
Qed.

Lemma index_head (b : byte) (s : list byte) : index (b :: s) 0 = Returns b.
Proof.
  unfold index. rewrite len_cons. pose proof (len_nonneg s).
  replace (0 <? 1 + len s) with true by (symmetry; apply Z.ltb_lt; lia).
  reflexivity.
Qed.

Lemma store_head (b v : byte) (s : list byte) : store (b :: s) 0 v = Returns (v :: s).
Proof.
  unfold store. rewrite len_cons. pose proof (len_nonneg s).
  replace (0 <? 1 + len s) with true by (symmetry; apply Z.ltb_lt; lia).
  reflexivity.
Qed.

Lemma update_from_app (pre sub sub' : list byte) (i : Z)
  (write : list byte -> outcome (list byte)) :
  i = len pre -> write sub = Returns sub' ->
  update_from (pre ++ sub) i write = Returns (pre ++ sub').
Proof.
  intros Hi Hw. unfold update_from. rewrite (slice_from_app pre sub i Hi).
  cbn [bind]. rewrite Hw. cbn [bind]. subst i. unfold len.
  now rewrite Nat2Z.id, firstn_app, firstn_all, Nat.sub_diag, firstn_O, app_nil_r.
Qed.

Lemma copy_prefix (src rest : list byte) :
  copy (make (len src) ++ rest) src = src ++ rest.
Proof.
  unfold copy, make, len. rewrite Nat2Z.id, length_app, repeat_length.
  rewrite firstn_all2 by lia. f_equal.
  rewrite skipn_app, repeat_length, Nat.sub_diag.
  now rewrite skipn_all2 by (rewrite repeat_length; lia).
Qed.

Lemma copy_make (src : list byte) : copy (make (len src)) src = src.
Proof.
  rewrite <- (app_nil_r (make (len src))), copy_prefix. apply app_nil_r.
Qed.

Lemma PutUint32_make (v : Z) (rest : list byte) :
  PutUint32 (make 4 ++ rest) v = Returns (be32 v ++ rest).
Proof. reflexivity. Qed.

End Slices.

(** ** Big-endian 32-bit integers *)

Section BigEndian.

Ltac drop_negative_bits :=
  repeat match goal with
         | |- context [Z.testbit ?u ?l] => rewrite (Z.testbit_neg_r u l) by lia
         end.

Ltac bits := Z.bitblast; drop_negative_bits; try btauto.

Lemma lor_shiftl_add a u n :
  0 <= n -> 0 <= a < 2 ^ n -> Z.lor a (Z.shiftl u n) = a + u * 2 ^ n.
Proof.
  intros Hn Ha. rewrite Z.or_to_plus.
  - now rewrite Z.shiftl_mul_pow2.
  - rewrite <- (Z.mod_small a (2 ^ n)) by lia. bits.
Qed.

Lemma be_lor_value b0 b1 b2 b3 :
  be_lor (byte.unsigned b0) (byte.unsigned b1) (byte.unsigned b2) (byte.unsigned b3)
  = be_value b0 b1 b2 b3.
Proof.
  pose proof (byte.unsigned_range b0). pose proof (byte.unsigned_range b1).
  pose proof (byte.unsigned_range b2). pose proof (byte.unsigned_range b3).
  unfold be_lor, be_value.
  rewrite (lor_shiftl_add (byte.unsigned b3) _ 8) by lia.
  rewrite (lor_shiftl_add _ (byte.unsigned b1) 16) by lia.
  rewrite (lor_shiftl_add _ (byte.unsigned b0) 24) by lia.
  lia.
Qed.

Lemma be_value_range b0 b1 b2 b3 : 0 <= be_value b0 b1 b2 b3 < 2 ^ 32.
Proof.
  pose proof (byte.unsigned_range b0). pose proof (byte.unsigned_range b1).
  pose proof (byte.unsigned_range b2). pose proof (byte.unsigned_range b3).
  unfold be_value. lia.
Qed.

Lemma be_lor_bytes u0 u1 u2 u3 :
  0 <= u0 < 2 ^ 8 -> 0 <= u1 < 2 ^ 8 -> 0 <= u2 < 2 ^ 8 -> 0 <= u3 < 2 ^ 8 ->
  (Z.shiftr (be_lor u0 u1 u2 u3) 24) mod 2 ^ 8 = u0 /\
  (Z.shiftr (be_lor u0 u1 u2 u3) 16) mod 2 ^ 8 = u1 /\
  (Z.shiftr (be_lor u0 u1 u2 u3) 8) mod 2 ^ 8 = u2 /\
  (be_lor u0 u1 u2 u3) mod 2 ^ 8 = u3.
Proof.
  intros H0 H1 H2 H3. unfold be_lor.
  rewrite <- (Z.mod_small u0 (2 ^ 8)) by lia.
  rewrite <- (Z.mod_small u1 (2 ^ 8)) by lia.
  rewrite <- (Z.mod_small u2 (2 ^ 8)) by lia.
  rewrite <- (Z.mod_small u3 (2 ^ 8)) by lia.
  repeat split; bits.
Qed.

Lemma be_lor_of_shifts v :
  be_lor ((Z.shiftr v 24) mod 2 ^ 8) ((Z.shiftr v 16) mod 2 ^ 8)
         ((Z.shiftr v 8) mod 2 ^ 8) (v mod 2 ^ 8) = v mod 2 ^ 32.
Proof. unfold be_lor. bits. Qed.

Lemma Uint32_cons b0 b1 b2 b3 rest :
  Uint32 (b0 :: b1 :: b2 :: b3 :: rest) = Returns (be_value b0 b1 b2 b3).
Proof. cbn [Uint32]. f_equal. apply be_lor_value. Qed.

(** Reading back what [PutUint32] wrote gives the value's low 32 bits. *)
Lemma Uint32_be32 v rest : Uint32 (be32 v ++ rest) = Returns (uint32 v).
Proof.
  unfold be32. cbn [app]. rewrite Uint32_cons, <- be_lor_value. f_equal.
  rewrite !byte.unsigned_of_Z. unfold byte.wrap, uint32. apply be_lor_of_shifts.
Qed.

(** Writing the value of four bytes gives the four bytes. *)
Lemma be32_be_value b0 b1 b2 b3 : be32 (be_value b0 b1 b2 b3) = [b0; b1; b2; b3].
Proof.
  rewrite <- be_lor_value. unfold be32.
  destruct (be_lor_bytes _ _ _ _ (byte.unsigned_range b0) (byte.unsigned_range b1)
              (byte.unsigned_range b2) (byte.unsigned_range b3)) as (E0 & E1 & E2 & E3).
  repeat f_equal; apply byte.unsigned_inj; rewrite byte.unsigned_of_Z;
    unfold byte.wrap; assumption.
Qed.

Lemma be_value_be32 v b0 b1 b2 b3 :
  be32 v = [b0; b1; b2; b3] -> be_value b0 b1 b2 b3 = uint32 v.
Proof.
  intros E. pose proof (Uint32_be32 v []) as H. rewrite E in H. cbn [app] in H.
  rewrite Uint32_cons in H. congruence.
Qed.

Lemma uint32_small v : 0 <= v < 2 ^ 32 -> uint32 v = v.
Proof. apply Z.mod_small. Qed.

End BigEndian.

(** ** The binary layout *)

Section Encode.

Lemma make_buffer (ls lh : Z) :
  0 <= ls -> 0 <= lh ->
  make (hdrLength + ls + lh)
  = make 1 ++ make 4 ++ make 4 ++ make 4 ++ make ls ++ make lh.
Proof.
  intros Hs Hh. unfold hdrLength.
  replace (1 + 3 * 4 + ls + lh) with (1 + (4 + (4 + (4 + (ls + lh))))) by lia.
  now rewrite !make_add by lia.
Qed.

Lemma put_at (pre rest : list byte) (i v : Z) :
  i = len pre ->
  update_from (pre ++ make 4 ++ rest) i (fun b => PutUint32 b v)
  = Returns (pre ++ be32 v ++ rest).
Proof.
  intros Hi. apply (update_from_app pre (make 4 ++ rest) (be32 v ++ rest) i _ Hi).
  apply PutUint32_make.
Qed.

Lemma copy_at (pre src rest : list byte) (i : Z) :
  i = len pre ->
  update_from (pre ++ make (len src) ++ rest) i (fun b => Returns (copy b src))
  = Returns (pre ++ src ++ rest).
Proof.
  intros Hi. apply (update_from_app pre (make (len src) ++ rest) (src ++ rest) i _ Hi).
  now rewrite copy_prefix.
Qed.

Lemma write_fields {A : Type} (ver : byte) (prf iter : Z) (salt hash : list byte)
  (k : list byte -> outcome A) :
  (let out := make (hdrLength + len salt + len hash) in
   out <- store out 0 ver ;;
   out <- update_from out 1 (fun b => PutUint32 b prf) ;;
   out <- update_from out (1 + 4) (fun b => PutUint32 b iter) ;;
   out <- update_from out (1 + 4 + 4) (fun b => PutUint32 b (uint32 (len salt))) ;;
   out <- update_from out hdrLength (fun b => Returns (copy b salt)) ;;
   out <- update_from out (hdrLength + len salt) (fun b => Returns (copy b hash)) ;;
   k out)
  = k (layout ver prf iter salt hash).
Proof.
  cbv zeta. rewrite make_buffer by apply len_nonneg.
  change (make 1 ++ ?r) with (Byte.x00 :: r). rewrite store_head. cbn [bind].
  change (ver :: ?r) with ([ver] ++ r).
  rewrite (put_at [ver] _ 1 prf eq_refl). cbn [bind].
  rewrite (app_assoc [ver]).
  rewrite (put_at ([ver] ++ be32 prf) _ (1 + 4) iter eq_refl). cbn [bind].
  rewrite (app_assoc ([ver] ++ be32 prf)).
  rewrite (put_at (([ver] ++ be32 prf) ++ be32 iter) _ (1 + 4 + 4) _ eq_refl). cbn [bind].
  rewrite (app_assoc (([ver] ++ be32 prf) ++ be32 iter)).
  rewrite (copy_at ((([ver] ++ be32 prf) ++ be32 iter) ++ be32 (uint32 (len salt)))
             salt _ hdrLength eq_refl).
  cbn [bind].
  rewrite (app_assoc _ salt), <- (app_nil_r (make (len hash))).
  rewrite (copy_at _ hash [] (hdrLength + len salt))
    by (rewrite !len_app; reflexivity).
  cbn [bind]. now rewrite <- !app_assoc, app_nil_r.
Qed.

(** [MarshalBinary] returns the layout of the record's fields, and no error. *)
Lemma MarshalBinary_layout (pd : pwhash.PWHash) :
  pwhash.MarshalBinary pd
  = Returns (layout (pwhash.ver pd) (pwhash.prf pd) (pwhash.iter pd)
                    (pwhash.salt pd) (pwhash.hash pd), None).
Proof. apply (write_fields _ _ _ _ _ (fun out => Returns (out, None))). Qed.

(** [pack] returns the layout of the record's fields. *)
Lemma pack_layout (d : pwdatav3.PWDataV3) :
  pwdatav3.pack d
  = Returns (layout (pwdatav3.ver d) (pwdatav3.prf d) (pwdatav3.iter d)
                    (pwdatav3.salt d) (pwdatav3.hash d)).
Proof. apply (write_fields _ _ _ _ _ (fun out => Returns out)). Qed.

End Encode.

(** ** Decoding, case by case *)

Section Decode.

Lemma header_view (a : list byte) :
  hdrLength <= len a ->
  exists b0 p0 p1 p2 p3 i0 i1 i2 i3 s0 s1 s2 s3 body,
    a = b0 :: p0 :: p1 :: p2 :: p3 :: i0 :: i1 :: i2 :: i3 :: s0 :: s1 :: s2 :: s3 :: body.
Proof.
  unfold hdrLength, len. intros H.
  do 13 (destruct a as [|? a]; [cbn [List.length] in H; lia|]).
  repeat eexists.
Qed.

Lemma body_slices (hdr body : list byte) (saltlen : Z) :
  len hdr = hdrLength -> 0 <= saltlen -> saltlen <= len body ->
  slice (hdr ++ body) hdrLength (hdrLength + saltlen)
    = Returns (firstn (Z.to_nat saltlen) body)
  /\ slice_from (hdr ++ body) (hdrLength + saltlen)
    = Returns (skipn (Z.to_nat saltlen) body).
Proof.
  intros Hh H0 Hl.
  assert (Hn : len (firstn (Z.to_nat saltlen) body) = saltlen).
  { unfold len in *. rewrite length_firstn. lia. }
  rewrite <- (firstn_skipn (Z.to_nat saltlen) body) at 1 3. split.
  - apply slice_app; lia.
  - rewrite app_assoc. apply slice_from_app. rewrite len_app. lia.
Qed.

Lemma length_checked (saltlen n : Z) :
  0 <= saltlen <= 64 -> 0 <= n ->
  uint32 (hdrLength + saltlen + sha256_Size) = uint32 (hdrLength + n) ->
  saltlen + sha256_Size <= n.
Proof.
  unfold uint32, hdrLength, sha256_Size. intros Hs Hn E.
  rewrite (Z.mod_small (1 + 3 * 4 + saltlen + 32)) in E by lia.
  pose proof (Z.mod_le (1 + 3 * 4 + n) (2 ^ 32)). lia.
Qed.

Lemma UnmarshalBinary_cons (pd : pwhash.PWHash)
  (b0 p0 p1 p2 p3 i0 i1 i2 i3 s0 s1 s2 s3 : byte) (body : list byte) :
  let prf := be_value p0 p1 p2 p3 in
  let iter := be_value i0 i1 i2 i3 in
  let saltlen := be_value s0 s1 s2 s3 in
  pwhash.UnmarshalBinary pd
    (b0 :: p0 :: p1 :: p2 :: p3 :: i0 :: i1 :: i2 :: i3 :: s0 :: s1 :: s2 :: s3 :: body)
  = if negb (byte.unsigned b0 =? v3) then Returns (pd, Some ErrVersion)
    else if negb (prf =? prfSHA256) then Returns (pd, Some ErrFunction)
    else if (iter <? 1) || (iter >? 100000) then Returns (pd, Some ErrParameter)
    else if (saltlen <? 1) || (saltlen >? 64) then Returns (pd, Some ErrParameter)
    else if negb (uint32 (hdrLength + saltlen + sha256_Size) =? uint32 (hdrLength + len body))
    then Returns (pd, Some ErrCorrupt)
    else Returns (pwhash.mkPWHash b0 prf iter (firstn (Z.to_nat saltlen) body)
                                  (skipn (Z.to_nat saltlen) body), None).
Proof.
  intros prf iter saltlen. unfold pwhash.UnmarshalBinary.
  set (a := b0 :: _).
  assert (Ha : len a = hdrLength + len body).
  { unfold a. rewrite !len_cons. unfold hdrLength. lia. }
  pose proof (len_nonneg body) as Hb.
  replace (len a <? hdrLength) with false by (symmetry; apply Z.ltb_ge; lia).
  assert (I0 : index a 0 = Returns b0) by apply index_head.
  assert (S1 : slice_from a 1 = Returns (p0 :: p1 :: p2 :: p3 :: i0 :: i1 :: i2 :: i3
                                          :: s0 :: s1 :: s2 :: s3 :: body))
    by apply (slice_from_app [b0] _ 1 eq_refl).
  assert (S5 : slice_from a (1 + 4) = Returns (i0 :: i1 :: i2 :: i3
                                                :: s0 :: s1 :: s2 :: s3 :: body))
    by apply (slice_from_app [b0; p0; p1; p2; p3] _ (1 + 4) eq_refl).
  assert (S9 : slice_from a (1 + 4 + 4) = Returns (s0 :: s1 :: s2 :: s3 :: body))
    by apply (slice_from_app [b0; p0; p1; p2; p3; i0; i1; i2; i3] _ (1 + 4 + 4) eq_refl).
  rewrite I0. cbn [bind].
  destruct (negb (byte.unsigned b0 =? v3)); [reflexivity|].
  rewrite S1. cbn [bind].
  rewrite Uint32_cons. cbn [bind]. fold prf.
  destruct (negb (prf =? prfSHA256)); [reflexivity|].
  rewrite S5. cbn [bind].
  rewrite Uint32_cons. cbn [bind]. fold iter.
  destruct ((iter <? 1) || (iter >? 100000)); [reflexivity|].
  rewrite S9. cbn [bind]. rewrite Uint32_cons. cbn [bind]. fold saltlen.
  destruct ((saltlen <? 1) || (saltlen >? 64)) eqn:Hs; [reflexivity|].
  apply orb_false_elim in Hs. destruct Hs as [Hs1 Hs2].
  apply Z.ltb_ge in Hs1. rewrite Z.gtb_ltb in Hs2. apply Z.ltb_ge in Hs2.
  rewrite Ha.
  destruct (uint32 (hdrLength + saltlen + sha256_Size) =? uint32 (hdrLength + len body))
    eqn:Hl; cbn [negb]; [|reflexivity].
  apply Z.eqb_eq in Hl. apply length_checked in Hl; [|lia|lia].
  rewrite (uint32_small (hdrLength + saltlen)) by (unfold hdrLength; lia).
  destruct (body_slices [b0; p0; p1; p2; p3; i0; i1; i2; i3; s0; s1; s2; s3] body saltlen)
    as [E1 E2]; [reflexivity|lia|unfold sha256_Size in Hl; lia|].
  unfold a. cbn [app] in E1, E2. rewrite E1, E2. reflexivity.
Qed.

Lemma unpack_cons (d : pwdatav3.PWDataV3)
  (b0 p0 p1 p2 p3 i0 i1 i2 i3 s0 s1 s2 s3 : byte) (body : list byte) :
  let prf := be_value p0 p1 p2 p3 in
  let iter := be_value i0 i1 i2 i3 in
  let saltlen := be_value s0 s1 s2 s3 in
  pwdatav3.unpack d
    (b0 :: p0 :: p1 :: p2 :: p3 :: i0 :: i1 :: i2 :: i3 :: s0 :: s1 :: s2 :: s3 :: body)
  = if negb (byte.unsigned b0 =? v3)
    then Returns (pwdatav3.set_ver d b0, Some ErrVersion)
    else if negb (prf =? prfSHA256)
    then Returns (pwdatav3.set_prf (pwdatav3.set_ver d b0) prf, Some ErrFunction)
    else if iter >? 100000
    then Returns (pwdatav3.set_iter (pwdatav3.set_prf (pwdatav3.set_ver d b0) prf) iter,
                  Some ErrParameter)
    else if saltlen >? 64
    then Returns (pwdatav3.set_iter (pwdatav3.set_prf (pwdatav3.set_ver d b0) prf) iter,
                  Some ErrParameter)
    else if uint32 (hdrLength + saltlen) >=? uint32 (hdrLength + len body)
    then Returns (pwdatav3.set_iter (pwdatav3.set_prf (pwdatav3.set_ver d b0) prf) iter,
                  Some ErrCorrupt)
    else Returns (pwdatav3.mkPWDataV3 b0 prf iter (firstn (Z.to_nat saltlen) body)
                                      (skipn (Z.to_nat saltlen) body), None).
Proof.
  intros prf iter saltlen. unfold pwdatav3.unpack.
  set (a := b0 :: _).
  assert (Ha : len a = hdrLength + len body).
  { unfold a. rewrite !len_cons. unfold hdrLength. lia. }
  pose proof (len_nonneg body) as Hb.
  replace (len a <? hdrLength) with false by (symmetry; apply Z.ltb_ge; lia).
  assert (I0 : index a 0 = Returns b0) by apply index_head.
  assert (S1 : slice_from a 1 = Returns (p0 :: p1 :: p2 :: p3 :: i0 :: i1 :: i2 :: i3
                                          :: s0 :: s1 :: s2 :: s3 :: body))
    by apply (slice_from_app [b0] _ 1 eq_refl).
  assert (S5 : slice_from a (1 + 4) = Returns (i0 :: i1 :: i2 :: i3
                                                :: s0 :: s1 :: s2 :: s3 :: body))
    by apply (slice_from_app [b0; p0; p1; p2; p3] _ (1 + 4) eq_refl).
  assert (S9 : slice_from a (1 + 4 + 4) = Returns (s0 :: s1 :: s2 :: s3 :: body))
    by apply (slice_from_app [b0; p0; p1; p2; p3; i0; i1; i2; i3] _ (1 + 4 + 4) eq_refl).
  rewrite I0. cbn [bind]. cbv zeta.
  cbn [pwdatav3.ver pwdatav3.set_ver].
  destruct (negb (byte.unsigned b0 =? v3)); [reflexivity|].
  rewrite S1. cbn [bind].
  rewrite Uint32_cons. cbn [bind]. fold prf. cbn [pwdatav3.prf pwdatav3.set_prf].
  destruct (negb (prf =? prfSHA256)); [reflexivity|].
  rewrite S5. cbn [bind].
  rewrite Uint32_cons. cbn [bind]. fold iter. cbn [pwdatav3.iter pwdatav3.set_iter].
  destruct (iter >? 100000); [reflexivity|].
  rewrite S9. cbn [bind]. rewrite Uint32_cons. cbn [bind]. fold saltlen.
  destruct (saltlen >? 64) eqn:Hs; [reflexivity|].
  rewrite Z.gtb_ltb in Hs. apply Z.ltb_ge in Hs.
  pose proof (be_value_range s0 s1 s2 s3) as Hr. fold saltlen in Hr.
  rewrite Ha.
  destruct (uint32 (hdrLength + saltlen) >=? uint32 (hdrLength + len body)) eqn:Hl;
    [reflexivity|].
  rewrite Z.geb_leb in Hl. apply Z.leb_gt in Hl.
  rewrite (uint32_small (hdrLength + saltlen)) in * by (unfold hdrLength; lia).
  assert (saltlen < len body).
  { pose proof (Z.mod_le (hdrLength + len body) (2 ^ 32)). unfold uint32, hdrLength in *. lia. }
  destruct (body_slices [b0; p0; p1; p2; p3; i0; i1; i2; i3; s0; s1; s2; s3] body saltlen)
    as [E1 E2]; [reflexivity|lia|lia|].
  unfold a. cbn [app] in E1, E2. rewrite E1, E2. reflexivity.
Qed.

End Decode.

(** A goal about a decoder applied to [a]: either [a] is shorter than a
    header, or it is thirteen bytes followed by a body and the decoder is
    the cascade of [UnmarshalBinary_cons] or [unpack_cons]. *)
Ltac split_on_header a :=
  let Hshort := fresh "Hshort" in
  let Hlong := fresh "Hlong" in
  destruct (Z.lt_ge_cases (len a) hdrLength) as [Hshort|Hlong];
  [ (unfold pwhash.UnmarshalBinary || unfold pwdatav3.unpack);
    rewrite (proj2 (Z.ltb_lt _ _) Hshort)
  | destruct (header_view a Hlong)
      as (?b0 & ?p0 & ?p1 & ?p2 & ?p3 & ?i0 & ?i1 & ?i2 & ?i3
          & ?s0 & ?s1 & ?s2 & ?s3 & ?body & ->);
    rewrite ?UnmarshalBinary_cons, ?unpack_cons; cbv zeta ].

Ltac destruct_checks :=
  repeat match goal with
         | |- context [if ?c then _ else _] => destruct c
         end.

(** ** Round trip of the binary codec *)

Section RoundTrip.

Lemma valid_fields_spec ver prf iter salt hash :
  valid_fields ver prf iter salt hash = true ->
  byte.unsigned ver = 1 /\ prf = 1 /\ 1 <= iter <= 100000
  /\ 1 <= len salt <= 64 /\ len hash = 32.
Proof.
  unfold valid_fields. rewrite !andb_true_iff, !Z.eqb_eq, !Z.leb_le. lia.
Qed.

Lemma be_value_of_be32 v :
  match be32 v with
  | [b0; b1; b2; b3] => be_value b0 b1 b2 b3 = uint32 v
  | _ => False
  end.
Proof. unfold be32. now apply be_value_be32. Qed.

Lemma firstn_len_app (s t : list byte) : firstn (Z.to_nat (len s)) (s ++ t) = s.
Proof.
  unfold len. rewrite Nat2Z.id, firstn_app, firstn_all, Nat.sub_diag, firstn_O.
  apply app_nil_r.
Qed.

Lemma skipn_len_app (s t : list byte) : skipn (Z.to_nat (len s)) (s ++ t) = t.
Proof.
  unfold len. now rewrite Nat2Z.id, skipn_app, skipn_all, Nat.sub_diag.
Qed.

(** Decoding a laid-out valid record, with [UnmarshalBinary]. *)
Lemma UnmarshalBinary_layout (pd : pwhash.PWHash) ver prf iter salt hash :
  valid_fields ver prf iter salt hash = true ->
  pwhash.UnmarshalBinary pd (layout ver prf iter salt hash)
  = Returns (pwhash.mkPWHash ver prf iter salt hash, None).
Proof.
  intros Hv. apply valid_fields_spec in Hv. destruct Hv as (Hver & Hprf & Hit & Hsl & Hh).
  unfold layout.
  pose proof (be_value_of_be32 prf) as Ep.
  pose proof (be_value_of_be32 iter) as Ei.
  pose proof (be_value_of_be32 (uint32 (len salt))) as Es.
  unfold be32 in *. cbn [app]. rewrite UnmarshalBinary_cons. cbv zeta.
  rewrite Ep, Ei, Es. clear Ep Ei Es.
  rewrite !(uint32_small (len salt)), (uint32_small prf), (uint32_small iter) by lia.
  rewrite Hver, Hprf. cbn [negb Z.eqb v3 prfSHA256 Pos.eqb].
  replace (iter <? 1) with false by (symmetry; apply Z.ltb_ge; lia).
  replace (iter >? 100000) with false by (symmetry; rewrite Z.gtb_ltb; apply Z.ltb_ge; lia).
  replace (len salt <? 1) with false by (symmetry; apply Z.ltb_ge; lia).
  replace (len salt >? 64) with false
    by (symmetry; rewrite Z.gtb_ltb; apply Z.ltb_ge; lia).
  cbn [orb]. rewrite len_app, Hh.
  replace (hdrLength + (len salt + 32)) with (hdrLength + len salt + sha256_Size)
    by (unfold sha256_Size; lia).
  rewrite Z.eqb_refl. cbn [negb].
  now rewrite firstn_len_app, skipn_len_app.
Qed.

(** Decoding a laid-out valid record, with [unpack]. *)
Lemma unpack_layout (d : pwdatav3.PWDataV3) ver prf iter salt hash :
  valid_fields ver prf iter salt hash = true ->
  pwdatav3.unpack d (layout ver prf iter salt hash)
  = Returns (pwdatav3.mkPWDataV3 ver prf iter salt hash, None).
Proof.
  intros Hv. apply valid_fields_spec in Hv. destruct Hv as (Hver & Hprf & Hit & Hsl & Hh).
  unfold layout.
  pose proof (be_value_of_be32 prf) as Ep.
  pose proof (be_value_of_be32 iter) as Ei.
  pose proof (be_value_of_be32 (uint32 (len salt))) as Es.
  unfold be32 in *. cbn [app]. rewrite unpack_cons. cbv zeta.
  rewrite Ep, Ei, Es. clear Ep Ei Es.
  rewrite !(uint32_small (len salt)), (uint32_small prf), (uint32_small iter) by lia.
  rewrite Hver, Hprf. cbn [negb Z.eqb v3 prfSHA256 Pos.eqb].
  replace (iter >? 100000) with false by (symmetry; rewrite Z.gtb_ltb; apply Z.ltb_ge; lia).
  replace (len salt >? 64) with false
    by (symmetry; rewrite Z.gtb_ltb; apply Z.ltb_ge; lia).
  rewrite len_app, Hh.
  rewrite !uint32_small by (unfold hdrLength; lia).
  replace (hdrLength + len salt >=? hdrLength + (len salt + 32)) with false
    by (symmetry; rewrite Z.geb_leb; apply Z.leb_gt; lia).
  now rewrite firstn_len_app, skipn_len_app.
Qed.

Lemma layout_of_header (b0 p0 p1 p2 p3 i0 i1 i2 i3 s0 s1 s2 s3 : byte) (body : list byte) :
  let saltlen := be_value s0 s1 s2 s3 in
  saltlen <= len body ->
  layout b0 (be_value p0 p1 p2 p3) (be_value i0 i1 i2 i3)
         (firstn (Z.to_nat saltlen) body) (skipn (Z.to_nat saltlen) body)
  = b0 :: p0 :: p1 :: p2 :: p3 :: i0 :: i1 :: i2 :: i3 :: s0 :: s1 :: s2 :: s3 :: body.
Proof.
  intros saltlen Hl. pose proof (be_value_range s0 s1 s2 s3) as Hr. fold saltlen in Hr.
  unfold layout.
  assert (Hn : len (firstn (Z.to_nat saltlen) body) = saltlen).
  { unfold len in *. rewrite length_firstn. lia. }
  rewrite Hn, (uint32_small saltlen) by lia. unfold saltlen.
  rewrite !be32_be_value. cbn [app]. now rewrite firstn_skipn.
Qed.

(** What [UnmarshalBinary] accepts is the layout of what it yields. *)
Lemma UnmarshalBinary_accepts (pd d : pwhash.PWHash) (b : list byte) :
  pwhash.UnmarshalBinary pd b = Returns (d, None) ->
  b = layout (pwhash.ver d) (pwhash.prf d) (pwhash.iter d) (pwhash.salt d) (pwhash.hash d).
Proof.
  intros H.
  assert (Hlen : hdrLength <= len b).
  { unfold pwhash.UnmarshalBinary in H. destruct (Z.ltb_spec (len b) hdrLength); [discriminate|lia]. }
  destruct (header_view b Hlen)
    as (b0 & p0 & p1 & p2 & p3 & i0 & i1 & i2 & i3 & s0 & s1 & s2 & s3 & body & ->).
  rewrite UnmarshalBinary_cons in H. cbv zeta in H.
  destruct (negb (byte.unsigned b0 =? v3)); [discriminate|].
  destruct (negb (be_value p0 p1 p2 p3 =? prfSHA256)); [discriminate|].
  destruct ((be_value i0 i1 i2 i3 <? 1) || (be_value i0 i1 i2 i3 >? 100000)); [discriminate|].
  destruct ((be_value s0 s1 s2 s3 <? 1) || (be_value s0 s1 s2 s3 >? 64)) eqn:Hs; [discriminate|].
  destruct (uint32 (hdrLength + be_value s0 s1 s2 s3 + sha256_Size)
            =? uint32 (hdrLength + len body)) eqn:Hl; [|discriminate].
  cbn [negb] in H. injection H as <-. cbn [pwhash.ver pwhash.prf pwhash.iter pwhash.salt pwhash.hash].
  apply orb_false_elim in Hs. destruct Hs as [Hs1 Hs2].
  apply Z.ltb_ge in Hs1. rewrite Z.gtb_ltb in Hs2. apply Z.ltb_ge in Hs2.
  apply Z.eqb_eq in Hl. apply length_checked in Hl; [|lia|apply len_nonneg].
  symmetry. apply layout_of_header. unfold sha256_Size in Hl. lia.
Qed.

(** What [unpack] accepts is the layout of what it yields. *)
Lemma unpack_accepts (d0 d : pwdatav3.PWDataV3) (b : list byte) :
  pwdatav3.unpack d0 b = Returns (d, None) ->
  b = layout (pwdatav3.ver d) (pwdatav3.prf d) (pwdatav3.iter d)
             (pwdatav3.salt d) (pwdatav3.hash d).
Proof.
  intros H.
  assert (Hlen : hdrLength <= len b).
  { unfold pwdatav3.unpack in H. destruct (Z.ltb_spec (len b) hdrLength); [discriminate|lia]. }
  destruct (header_view b Hlen)
    as (b0 & p0 & p1 & p2 & p3 & i0 & i1 & i2 & i3 & s0 & s1 & s2 & s3 & body & ->).
  rewrite unpack_cons in H. cbv zeta in H.
  destruct (negb (byte.unsigned b0 =? v3)); [discriminate|].
  destruct (negb (be_value p0 p1 p2 p3 =? prfSHA256)); [discriminate|].
  destruct (be_value i0 i1 i2 i3 >? 100000); [discriminate|].
  destruct (be_value s0 s1 s2 s3 >? 64) eqn:Hs; [discriminate|].
  destruct (uint32 (hdrLength + be_value s0 s1 s2 s3) >=? uint32 (hdrLength + len body))
    eqn:Hl; [discriminate|].
  injection H as <-.
  cbn [pwdatav3.ver pwdatav3.prf pwdatav3.iter pwdatav3.salt pwdatav3.hash].
  rewrite Z.gtb_ltb in Hs. apply Z.ltb_ge in Hs.
  rewrite Z.geb_leb in Hl. apply Z.leb_gt in Hl.
  pose proof (be_value_range s0 s1 s2 s3) as Hr. pose proof (len_nonneg body) as Hb.
  rewrite (uint32_small (hdrLength + be_value s0 s1 s2 s3)) in Hl by (unfold hdrLength; lia).
  pose proof (Z.mod_le (hdrLength + len body) (2 ^ 32)) as Hm.
  symmetry. apply layout_of_header. unfold uint32, hdrLength in *. lia.
Qed.

(** A record [UnmarshalBinary] yields from fewer than 2^32 bytes is valid. *)
Lemma UnmarshalBinary_yields_valid (pd d : pwhash.PWHash) (b : list byte) :
  len b < 2 ^ 32 ->
  pwhash.UnmarshalBinary pd b = Returns (d, None) -> valid_PWHash d = true.
Proof.
  intros Hb H.
  assert (Hlen : hdrLength <= len b).
  { unfold pwhash.UnmarshalBinary in H. destruct (Z.ltb_spec (len b) hdrLength); [discriminate|lia]. }
  destruct (header_view b Hlen)
    as (b0 & p0 & p1 & p2 & p3 & i0 & i1 & i2 & i3 & s0 & s1 & s2 & s3 & body & ->).
  rewrite UnmarshalBinary_cons in H. cbv zeta in H.
  destruct (byte.unsigned b0 =? v3) eqn:Hv; [|discriminate].
  destruct (be_value p0 p1 p2 p3 =? prfSHA256) eqn:Hp; [|discriminate].
  destruct ((be_value i0 i1 i2 i3 <? 1) || (be_value i0 i1 i2 i3 >? 100000)) eqn:Hi;
    [discriminate|].
  destruct ((be_value s0 s1 s2 s3 <? 1) || (be_value s0 s1 s2 s3 >? 64)) eqn:Hs; [discriminate|].
  destruct (uint32 (hdrLength + be_value s0 s1 s2 s3 + sha256_Size)
            =? uint32 (hdrLength + len body)) eqn:Hl; [|discriminate].
  cbn [negb] in H. injection H as <-.
  apply orb_false_elim in Hi. destruct Hi as [Hi1 Hi2].
  apply Z.ltb_ge in Hi1. rewrite Z.gtb_ltb in Hi2. apply Z.ltb_ge in Hi2.
  apply orb_false_elim in Hs. destruct Hs as [Hs1 Hs2].
  apply Z.ltb_ge in Hs1. rewrite Z.gtb_ltb in Hs2. apply Z.ltb_ge in Hs2.
  apply Z.eqb_eq in Hv, Hp, Hl.
  rewrite !len_cons in Hb. pose proof (len_nonneg body) as Hn.
  rewrite !uint32_small in Hl by (unfold hdrLength, sha256_Size; lia).
  unfold hdrLength, sha256_Size in Hl.
  unfold valid_PWHash, valid_fields.
  cbn [pwhash.ver pwhash.prf pwhash.iter pwhash.salt pwhash.hash].
  assert (Hsl : len (firstn (Z.to_nat (be_value s0 s1 s2 s3)) body) = be_value s0 s1 s2 s3).
  { unfold len in *. rewrite length_firstn. lia. }
  assert (Hhl : len (skipn (Z.to_nat (be_value s0 s1 s2 s3)) body) = 32).
  { unfold len in *. rewrite length_skipn. lia. }
  rewrite Hsl, Hhl. unfold v3, prfSHA256 in *.
  rewrite !andb_true_iff, !Z.eqb_eq, !Z.leb_le. lia.
Qed.

End RoundTrip.

(** ** Constant-time comparison *)

Section Compare.

Lemma byte_lor_small (a b : Z) :
  0 <= a < 2 ^ 8 -> 0 <= b < 2 ^ 8 -> Z.lor a b mod 2 ^ 8 = Z.lor a b.
Proof.
  intros Ha Hb.
  rewrite <- (Z.mod_small a (2 ^ 8)), <- (Z.mod_small b (2 ^ 8)) by lia.
  Z.bitblast.
Qed.

Lemma byte_lxor_small (a b : Z) :
  0 <= a < 2 ^ 8 -> 0 <= b < 2 ^ 8 -> 0 <= Z.lxor a b < 2 ^ 8.
Proof.
  intros Ha Hb.
  assert (E : Z.lxor a b mod 2 ^ 8 = Z.lxor a b).
  { rewrite <- (Z.mod_small a (2 ^ 8)), <- (Z.mod_small b (2 ^ 8)) by lia. Z.bitblast. }
  rewrite <- E. apply Z.mod_pos_bound. lia.
Qed.

Lemma xor_fold_zero (x : list byte) : forall (v : byte) (y : list byte),
  List.length x = List.length y ->
  (byte.unsigned (xor_fold v x y) = 0 <-> byte.unsigned v = 0 /\ x = y).
Proof.
  induction x as [|xi x IH]; intros v [|yi y] Hlen; cbn [List.length] in Hlen;
    try discriminate; cbn [xor_fold].
  - intuition.
  - rewrite IH by lia. rewrite byte.unsigned_of_Z. unfold byte.wrap.
    pose proof (byte.unsigned_range v) as Hv.
    pose proof (byte.unsigned_range xi) as Hx.
    pose proof (byte.unsigned_range yi) as Hy.
    rewrite byte_lor_small by (try apply byte_lxor_small; lia).
    rewrite Z.lor_eq_0_iff, Z.lxor_eq_0_iff. split.
    + intros [[Hv0 Hxy] ->]. apply byte.unsigned_inj in Hxy. now subst.
    + intros [Hv0 E]. injection E as -> ->. auto.
Qed.

Lemma ConstantTimeByteEq_zero (v : byte) :
  ConstantTimeByteEq v Byte.x00 = 1 <-> byte.unsigned v = 0.
Proof.
  unfold ConstantTimeByteEq, uint32. change (byte.unsigned Byte.x00) with 0.
  rewrite Z.lxor_0_r. pose proof (byte.unsigned_range v) as Hv.
  rewrite Z.shiftr_div_pow2 by lia.
  destruct (Z.eq_dec (byte.unsigned v) 0) as [E|N].
  - rewrite E. split; [trivial|]. intros _. reflexivity.
  - rewrite Z.mod_small by lia. rewrite Z.div_small by lia. split; [discriminate|contradiction].
Qed.

(** [ConstantTimeCompare] returns 1 exactly on equal slices. *)
Lemma ConstantTimeCompare_eq (x y : list byte) : ConstantTimeCompare x y = 1 <-> x = y.
Proof.
  unfold ConstantTimeCompare. destruct (Z.eqb_spec (len x) (len y)) as [E|N]; cbn [negb].
  - rewrite ConstantTimeByteEq_zero, xor_fold_zero by (unfold len in E; lia).
    change (byte.unsigned Byte.x00) with 0. tauto.
  - split; [discriminate|]. intros ->. contradiction.
Qed.

Lemma ConstantTimeCompare_refl (x : list byte) : ConstantTimeCompare x x = 1.
Proof. now apply ConstantTimeCompare_eq. Qed.

Lemma ConstantTimeCompare_eqb (x y : list byte) :
  (ConstantTimeCompare x y =? 1) = true <-> x = y.
Proof. rewrite Z.eqb_eq. apply ConstantTimeCompare_eq. Qed.

End Compare.

(** ** The decoders never panic *)

Section Total.

Lemma UnmarshalBinary_returns (pd : pwhash.PWHash) (a : list byte) :
  exists pd' e, pwhash.UnmarshalBinary pd a = Returns (pd', e).
Proof. split_on_header a; destruct_checks; eauto. Qed.

Lemma unpack_returns (d : pwdatav3.PWDataV3) (a : list byte) :
  exists d' e, pwdatav3.unpack d a = Returns (d', e).
Proof. split_on_header a; destruct_checks; eauto. Qed.

(** [UnmarshalBinary] assigns nothing to [pd] before every check has passed. *)
Lemma UnmarshalBinary_error_unchanged (pd pd' : pwhash.PWHash) (a : list byte) (e : error) :
  pwhash.UnmarshalBinary pd a = Returns (pd', Some e) -> pd' = pd.
Proof. split_on_header a; destruct_checks; congruence. Qed.

End Total.

(** ** The claims *)

Section BinaryCodec.

(** C1. Round trip of the binary codec, for [MarshalBinary]/[UnmarshalBinary]
    and for [pack]/[unpack]: decoding the encoding of a valid record (version
    1, PRF 1, 1 to 100000 iterations, 1 to 64 bytes of salt, a 32-byte subkey)
    succeeds and yields that record, whatever the receiver held before; and
    whenever decoding a byte sequence succeeds, encoding the decoded record
    gives back the same bytes. *)
Theorem binary_codec_round_trip :
  (forall r pd : pwhash.PWHash,
      valid_PWHash r = true -> decode_encoded pd r = Returns (r, None))
  /\ (forall (pd d : pwhash.PWHash) (b : list byte),
      pwhash.UnmarshalBinary pd b = Returns (d, None) ->
      pwhash.MarshalBinary d = Returns (b, None))
  /\ (forall r d0 : pwdatav3.PWDataV3,
      valid_PWDataV3 r = true -> unpack_packed d0 r = Returns (r, None))
  /\ (forall (d0 d : pwdatav3.PWDataV3) (b : list byte),
      pwdatav3.unpack d0 b = Returns (d, None) ->
      pwdatav3.pack d = Returns b).
Proof.
  repeat split.
  - intros r pd Hv. unfold decode_encoded. rewrite MarshalBinary_layout. cbn [bind fst].
    rewrite (UnmarshalBinary_layout pd _ _ _ _ _ Hv). now destruct r.
  - intros pd d b H. rewrite MarshalBinary_layout.
    now rewrite <- (UnmarshalBinary_accepts pd d b H).
  - intros r d0 Hv. unfold unpack_packed. rewrite pack_layout. cbn [bind].
    rewrite (unpack_layout d0 _ _ _ _ _ Hv). now destruct r.
  - intros d0 d b H. rewrite pack_layout.
    now rewrite <- (unpack_accepts d0 d b H).
Qed.

Lemma binary_codec_round_trip_witness :
  (valid_PWHash sample_PWHash = true
   /\ decode_encoded zero_PWHash sample_PWHash = Returns (sample_PWHash, None))
  /\ (pwhash.UnmarshalBinary zero_PWHash sample_bytes = Returns (sample_PWHash, None)
      /\ pwhash.MarshalBinary sample_PWHash = Returns (sample_bytes, None))
  /\ (valid_PWDataV3 sample_PWDataV3 = true
      /\ unpack_packed pwdatav3.zero sample_PWDataV3 = Returns (sample_PWDataV3, None))
  /\ (pwdatav3.unpack pwdatav3.zero sample_bytes = Returns (sample_PWDataV3, None)
      /\ pwdatav3.pack sample_PWDataV3 = Returns sample_bytes).
Proof.
  destruct binary_codec_round_trip as (H1 & H2 & H3 & H4).
  assert (E1 : valid_PWHash sample_PWHash = true) by reflexivity.
  assert (E2 : pwhash.UnmarshalBinary zero_PWHash sample_bytes
               = Returns (sample_PWHash, None)) by reflexivity.
  assert (E3 : valid_PWDataV3 sample_PWDataV3 = true) by reflexivity.
  assert (E4 : pwdatav3.unpack pwdatav3.zero sample_bytes
               = Returns (sample_PWDataV3, None)) by reflexivity.
  exact (conj (conj E1 (H1 _ _ E1))
              (conj (conj E2 (H2 _ _ _ E2))
                    (conj (conj E3 (H3 _ _ E3)) (conj E4 (H4 _ _ _ E4))))).
Defined.

Lemma layout_fields ver prf iter salt hash :
  0 <= prf < 2 ^ 32 -> 0 <= iter < 2 ^ 32 -> len salt < 2 ^ 32 ->
  laid_out (layout ver prf iter salt hash) ver prf iter salt hash.
Proof.
  intros Hp Hi Hs. pose proof (len_nonneg salt) as Hn. unfold layout, laid_out, be_field.
  pose proof (be_value_of_be32 prf) as Ep.
  pose proof (be_value_of_be32 iter) as Ei.
  pose proof (be_value_of_be32 (uint32 (len salt))) as Es.
  rewrite !(uint32_small (len salt)), ?(uint32_small prf), ?(uint32_small iter) in * by lia.
  unfold be32 in *.
  refine (conj _ (conj _ (conj _ (conj _ (conj _ _))))).
  - apply index_head.
  - do 4 eexists. split; [|exact Ep].
    apply (slice_app [ver] [_; _; _; _] _ 1 (1 + 4)); reflexivity.
  - do 4 eexists. split; [|exact Ei].
    apply (slice_app [ver; _; _; _; _] [_; _; _; _] _ 5 (5 + 4)); reflexivity.
  - do 4 eexists. split; [|exact Es].
    apply (slice_app [ver; _; _; _; _; _; _; _; _] [_; _; _; _] _ 9 (9 + 4)); reflexivity.
  - apply (slice_app [ver; _; _; _; _; _; _; _; _; _; _; _; _] salt hash); reflexivity.
  - apply (slice_from_app ([ver; _; _; _; _; _; _; _; _; _; _; _; _] ++ salt) hash).
    rewrite len_app. reflexivity.
Qed.

Lemma layout_len ver prf iter salt hash :
  len (layout ver prf iter salt hash) = hdrLength + len salt + len hash.
Proof.
  unfold layout. rewrite len_cons, !len_app, !len_be32. unfold hdrLength. lia.
Qed.

(** C8. For every valid record, [MarshalBinary] (and [pack]) returns, with
    no error and no panic, exactly 13 + len(salt) + 32 bytes: the version
    byte at offset 0, then PRF, iteration count and salt length as
    big-endian 32-bit integers at offsets 1, 5 and 9, the salt at offset 13
    and the 32 bytes of the subkey right after the salt. *)
Theorem encode_layout :
  (forall r : pwhash.PWHash,
      valid_PWHash r = true ->
      exists out,
        pwhash.MarshalBinary r = Returns (out, None)
        /\ len out = 13 + len (pwhash.salt r) + 32
        /\ len (pwhash.hash r) = 32
        /\ laid_out out (pwhash.ver r) (pwhash.prf r) (pwhash.iter r)
                    (pwhash.salt r) (pwhash.hash r))
  /\ (forall r : pwdatav3.PWDataV3,
      valid_PWDataV3 r = true ->
      exists out,
        pwdatav3.pack r = Returns out
        /\ len out = 13 + len (pwdatav3.salt r) + 32
        /\ len (pwdatav3.hash r) = 32
        /\ laid_out out (pwdatav3.ver r) (pwdatav3.prf r) (pwdatav3.iter r)
                    (pwdatav3.salt r) (pwdatav3.hash r)).
Proof.
  split; intros r Hv; apply valid_fields_spec in Hv;
    destruct Hv as (Hver & Hprf & Hit & Hsl & Hh); eexists;
    (split; [first [apply MarshalBinary_layout | apply pack_layout]|]);
    (split; [rewrite layout_len, Hh; reflexivity|]);
    (split; [exact Hh|]); apply layout_fields; lia.
Qed.

Lemma encode_layout_witness :
  valid_PWDataV3 sample_PWDataV3 = true
  /\ exists out,
      pwdatav3.pack sample_PWDataV3 = Returns out
      /\ len out = 13 + len (pwdatav3.salt sample_PWDataV3) + 32
      /\ len (pwdatav3.hash sample_PWDataV3) = 32
      /\ laid_out out (pwdatav3.ver sample_PWDataV3) (pwdatav3.prf sample_PWDataV3)
                  (pwdatav3.iter sample_PWDataV3) (pwdatav3.salt sample_PWDataV3)
                  (pwdatav3.hash sample_PWDataV3).
Proof.
  split; [reflexivity|].
  apply (proj2 encode_layout sample_PWDataV3). reflexivity.
Defined.

End BinaryCodec.

Section Verification.

Variable pbkdf2_Key : list byte -> list byte -> Z -> Z -> list byte.
Variable StdEncoding_Decode : list byte -> list byte * option CorruptInputError.

(** C5. [Verify] (and [VerifyPassword]) returns true exactly when
    [pbkdf2.Key] applied to the bytes of the candidate password, the
    record's own salt, its iteration count and the key length 32 equals the
    stored subkey byte for byte.  It always returns, and what it runs is
    that one derivation followed by one constant-time comparison of the
    stored subkey with the derived key. *)
Theorem verify_iff_derived_key_equal :
  (forall (pd : pwhash.PWHash) (pw : string),
      let dk := pbkdf2_Key (bytes_of_string pw) (pwhash.salt pd) (pwhash.iter pd) 32 in
      exists ok,
        result (pwhash.Verify pbkdf2_Key pd pw) = Returns ok
        /\ (ok = true <-> dk = pwhash.hash pd)
        /\ events (pwhash.Verify pbkdf2_Key pd pw)
           = [EvDerive (bytes_of_string pw) (pwhash.salt pd) (pwhash.iter pd) 32;
              EvCompare (pwhash.hash pd) dk])
  /\ (forall (d : pwdatav3.PWDataV3) (pw : string),
      let dk := pbkdf2_Key (bytes_of_string pw) (pwdatav3.salt d) (pwdatav3.iter d) 32 in
      exists ok,
        result (pwdatav3.VerifyPassword pbkdf2_Key d pw) = Returns ok
        /\ (ok = true <-> dk = pwdatav3.hash d)
        /\ events (pwdatav3.VerifyPassword pbkdf2_Key d pw)
           = [EvDerive (bytes_of_string pw) (pwdatav3.salt d) (pwdatav3.iter d) 32;
              EvCompare (pwdatav3.hash d) dk]).
Proof.
  split; intros r pw dk; eexists; (split; [reflexivity|]);
    (split; [|reflexivity]);
    rewrite ConstantTimeCompare_eqb; subst dk; unfold int_of_uint32;
    change sha256_Size with 32; split; congruence.
Qed.

(** [fromBase64] returns either no record and an error, or a record and no
    error; it never panics. *)
Lemma fromBase64_cases (s : string) :
  (exists err, pwdatav3.fromBase64 StdEncoding_Decode s = Returns (None, Some err))
  \/ (exists d, pwdatav3.fromBase64 StdEncoding_Decode s = Returns (Some d, None)).
Proof.
  unfold pwdatav3.fromBase64.
  destruct (StdEncoding_Decode (bytes_of_string s)) as [out [e|]]; [eauto|].
  destruct (unpack_returns pwdatav3.zero out) as (d' & [e|] & ->); cbn [bind]; eauto.
Qed.

(** C7. Text decoding base64-decodes first.  When that fails,
    [UnmarshalText] returns an error of the Corrupt kind whose message is
    the prefix "password encoding: " followed by the base64 diagnostic
    ([fromBase64]: "pw data: "), and the binary decoder has no part in the
    outcome: the receiver is unchanged and no record is returned, whatever
    bytes were decoded before the failure.  When it succeeds, the result is
    that of the binary decoder on the decoded bytes ([fromBase64]: of
    [unpack] into a fresh record, returned when there is no error). *)
Theorem text_decoding :
  (forall (pd : pwhash.PWHash) (text out : list byte) (e : CorruptInputError),
      StdEncoding_Decode text = (out, Some e) ->
      exists err,
        pwhash.UnmarshalText StdEncoding_Decode pd text = Returns (pd, Some err)
        /\ kind_of err = KindCorrupt
        /\ Error err = ("password encoding: " ++ CorruptInputError_Error e)%string)
  /\ (forall (pd : pwhash.PWHash) (text out : list byte),
      StdEncoding_Decode text = (out, None) ->
      pwhash.UnmarshalText StdEncoding_Decode pd text = pwhash.UnmarshalBinary pd out)
  /\ (forall (s : string) (out : list byte) (e : CorruptInputError),
      StdEncoding_Decode (bytes_of_string s) = (out, Some e) ->
      exists err,
        pwdatav3.fromBase64 StdEncoding_Decode s = Returns (None, Some err)
        /\ kind_of err = KindCorrupt
        /\ Error err = ("pw data: " ++ CorruptInputError_Error e)%string)
  /\ (forall (s : string) (out : list byte),
      StdEncoding_Decode (bytes_of_string s) = (out, None) ->
      pwdatav3.fromBase64 StdEncoding_Decode s
      = (r <- pwdatav3.unpack pwdatav3.zero out ;;
         Returns match r with
                 | (_, Some err) => (None, Some err)
                 | (d, None) => (Some d, None)
                 end)).
Proof.
  refine (conj _ (conj _ (conj _ _))).
  - intros pd text out e H. unfold pwhash.UnmarshalText. rewrite H.
    eexists. split; [reflexivity|]. split; reflexivity.
  - intros pd text out H. unfold pwhash.UnmarshalText. now rewrite H.
  - intros s out e H. unfold pwdatav3.fromBase64. rewrite H.
    eexists. split; [reflexivity|]. split; reflexivity.
  - intros s out H. unfold pwdatav3.fromBase64. rewrite H.
    destruct (pwdatav3.unpack pwdatav3.zero out) as [[d [err|]]|p]; reflexivity.
Qed.

(** With a random source that fails, the decode-failure branch of
    [VerifyHash] ends in the panic of [Must]. *)
Lemma VerifyHash_decode_failure_no_salt (hash pw : string) (err : error) (message : string) :
  pwdatav3.fromBase64 StdEncoding_Decode hash = Returns (None, Some err) ->
  pwdatav3.VerifyHash pbkdf2_Key StdEncoding_Decode (RandFails message) hash pw
  = ([EvRandRead 16],
     Panics (PanicError (Errorf "cannot make salt value: " message))).
Proof.
  intros H. unfold pwdatav3.VerifyHash. rewrite H. reflexivity.
Qed.

(** C6, as the code has it.  When decoding the encoded text fails and the
    random source supplies the 16 bytes of a fresh salt, [VerifyHash] derives
    a key from the empty password with that salt and [DefaultIter]
    iterations, compares the key with itself, and returns false together
    with the decoding error.  When decoding yields a record, it does what
    [VerifyPassword] does on that record, and returns its result together
    with no error. *)
Theorem VerifyHash_outcomes :
  (forall (hash pw : string) (err : error) (stream : nat -> byte),
      pwdatav3.fromBase64 StdEncoding_Decode hash = Returns (None, Some err) ->
      let run := pwdatav3.VerifyHash pbkdf2_Key StdEncoding_Decode (RandBytes stream) hash pw in
      let salt := map stream (seq 0 16) in
      let dk := pbkdf2_Key [] salt DefaultIter sha256_Size in
      events run = [EvRandRead 16; EvDerive [] salt DefaultIter sha256_Size; EvCompare dk dk]
      /\ result run = Returns (false, Some err))
  /\ (forall (hash pw : string) (d : pwdatav3.PWDataV3) (rnd : rand_source),
      pwdatav3.fromBase64 StdEncoding_Decode hash = Returns (Some d, None) ->
      pwdatav3.VerifyHash pbkdf2_Key StdEncoding_Decode rnd hash pw
      = (ok <~ pwdatav3.VerifyPassword pbkdf2_Key d pw ;; tret (ok, None))).
Proof.
  split.
  - intros hash pw err stream H run salt dk. unfold run, pwdatav3.VerifyHash. rewrite H.
    cbn. fold salt. fold dk. now rewrite ConstantTimeCompare_refl.
  - intros hash pw d rnd H. unfold pwdatav3.VerifyHash. rewrite H. reflexivity.
Qed.

(** C10. In the decode-failure branch [VerifyHash] builds a credential with
    [Must(NewFromPassword("", DefaultIter))]: when the random source fails
    to supply the salt, a call on a malformed encoded value panics with the
    constructor's error, and returns nothing. *)
Theorem VerifyHash_panics (hash pw : string) (err : error) (message : string) :
  pwdatav3.fromBase64 StdEncoding_Decode hash = Returns (None, Some err) ->
  result (pwdatav3.VerifyHash pbkdf2_Key StdEncoding_Decode (RandFails message) hash pw)
  = Panics (PanicError (Errorf "cannot make salt value: " message))
  /\ forall r, result (pwdatav3.VerifyHash pbkdf2_Key StdEncoding_Decode
                         (RandFails message) hash pw) <> Returns r.
Proof.
  intros H. rewrite (VerifyHash_decode_failure_no_salt hash pw err message H).
  split; [reflexivity|discriminate].
Qed.

(** [New] of pwdatav3.go copies its arguments and checks nothing. *)
Lemma New_components (salt hash : list byte) (iter : Z) :
  pwdatav3.New salt iter hash
  = pwdatav3.mkPWDataV3 Byte.x01 1 (uint32 iter) salt hash.
Proof. unfold pwdatav3.New. now rewrite !copy_make. Qed.

(** Without random bytes the constructors return no record and the
    wrapped error of the random source. *)
Lemma constructors_without_salt (message pw : string) (iter : Z) :
  pwhash.New pbkdf2_Key (RandFails message) pw iter
  = ([EvRandRead DefaultSaltLen],
     Returns (None, Some (Errorf "cannot make salt value: " message)))
  /\ pwdatav3.NewFromPassword pbkdf2_Key (RandFails message) pw iter
     = ([EvRandRead DefaultSaltLen],
        Returns (None, Some (Errorf "cannot make salt value: " message)))
  /\ kind_of (Errorf "cannot make salt value: " message) = KindRandomSourceFailure.
Proof. repeat split. Qed.

(** What [UnmarshalBinary] makes of the encoding of a freshly constructed
    record: version 1, PRF 1, a salt of [DefaultSaltLen] bytes. *)
Lemma UnmarshalBinary_constructed (pd : pwhash.PWHash) (u : Z) (salt hash : list byte) :
  0 <= u < 2 ^ 32 -> len salt = DefaultSaltLen ->
  pwhash.UnmarshalBinary pd (layout (byte.of_Z v3) prfSHA256 u salt hash)
  = if (u <? 1) || (u >? 100000) then Returns (pd, Some ErrParameter)
    else if negb (uint32 (hdrLength + DefaultSaltLen + sha256_Size)
                  =? uint32 (hdrLength + (DefaultSaltLen + len hash)))
    then Returns (pd, Some ErrCorrupt)
    else Returns (pwhash.mkPWHash (byte.of_Z v3) prfSHA256 u salt hash, None).
Proof.
  intros Hu Hs. unfold layout.
  pose proof (be_value_of_be32 prfSHA256) as Ep.
  pose proof (be_value_of_be32 u) as Ei.
  pose proof (be_value_of_be32 (uint32 (len salt))) as Es.
  unfold be32 in *. cbn [app]. rewrite UnmarshalBinary_cons. cbv zeta.
  rewrite Ep, Ei, Es, Hs. clear Ep Ei Es.
  rewrite (uint32_small u) by lia.
  change (uint32 (uint32 DefaultSaltLen)) with DefaultSaltLen.
  change (negb (byte.unsigned (byte.of_Z v3) =? v3)) with false.
  change (negb (uint32 prfSHA256 =? prfSHA256)) with false.
  change ((DefaultSaltLen <? 1) || (DefaultSaltLen >? 64)) with false.
  cbv iota. rewrite len_app, Hs.
  destruct ((u <? 1) || (u >? 100000)); [reflexivity|].
  destruct (negb _); [reflexivity|].
  rewrite <- Hs. now rewrite firstn_len_app, skipn_len_app.
Qed.

Lemma rand_salt_len (stream : nat -> byte) :
  len (map stream (seq 0 (List.length (make DefaultSaltLen)))) = DefaultSaltLen.
Proof. reflexivity. Qed.

Lemma uint32_range (x : Z) : 0 <= uint32 x < 2 ^ 32.
Proof. apply Z.mod_pos_bound. lia. Qed.

Lemma out_of_range_iff (u : Z) :
  (u <? 1) || (u >? 100000) = true <-> ~ (1 <= u <= 100000).
Proof. rewrite orb_true_iff, Z.ltb_lt, Z.gtb_ltb, Z.ltb_lt. lia. Qed.

(** C9, as the code has it.  [New] and [NewFromPassword] check nothing about
    the iteration count: with a working random source they return, for every
    password and every [int] count, a record of version 1 and PRF 1 whose
    count is [uint32(iter)], the count cut to 32 bits.  [UnmarshalBinary]
    rejects the binary encoding of that record with [ErrParameter], leaving
    its receiver unchanged, exactly when [uint32(iter)] is outside
    [1, 100000]. *)
Theorem constructors_keep_any_iteration_count
  (stream : nat -> byte) (pw : string) (iter : Z) (pd : pwhash.PWHash) :
  (exists r,
      result (pwhash.New pbkdf2_Key (RandBytes stream) pw iter) = Returns (Some r, None)
      /\ byte.unsigned (pwhash.ver r) = 1 /\ pwhash.prf r = 1
      /\ pwhash.iter r = uint32 iter
      /\ (decode_encoded pd r = Returns (pd, Some ErrParameter)
          <-> ~ (1 <= uint32 iter <= 100000)))
  /\ (exists d,
      result (pwdatav3.NewFromPassword pbkdf2_Key (RandBytes stream) pw iter)
      = Returns (Some d, None)
      /\ byte.unsigned (pwdatav3.ver d) = 1 /\ pwdatav3.prf d = 1
      /\ pwdatav3.iter d = uint32 iter
      /\ (decode_packed pd d = Returns (pd, Some ErrParameter)
          <-> ~ (1 <= uint32 iter <= 100000))).
Proof.
  split; eexists; (split; [reflexivity|]); (split; [reflexivity|]);
    (split; [reflexivity|]); (split; [reflexivity|]);
    unfold decode_encoded, decode_packed;
    rewrite ?MarshalBinary_layout, ?pack_layout; cbn [bind fst];
    cbn [pwhash.ver pwhash.prf pwhash.iter pwhash.salt pwhash.hash
         pwdatav3.ver pwdatav3.prf pwdatav3.iter pwdatav3.salt pwdatav3.hash];
    rewrite (UnmarshalBinary_constructed pd _ _ _ (uint32_range iter) (rand_salt_len stream));
    rewrite <- out_of_range_iff;
    destruct ((uint32 iter <? 1) || (uint32 iter >? 100000));
    (split; [|reflexivity || discriminate]);
    try reflexivity; destruct (negb _); discriminate.
Qed.

End Verification.

(** ** The claims on concrete inputs *)

Section Concrete.

Lemma text_decoding_witness :
  (snd (base64.StdEncoding_Decode (bytes_of_string josephine_garbled)) = Some 84
   /\ exists err,
       pwhash.UnmarshalText base64.StdEncoding_Decode zero_PWHash
         (bytes_of_string josephine_garbled) = Returns (zero_PWHash, Some err)
       /\ kind_of err = KindCorrupt
       /\ Error err = ("password encoding: " ++ CorruptInputError_Error 84)%string)
  /\ (snd (base64.StdEncoding_Decode (bytes_of_string josephine)) = None
      /\ pwhash.UnmarshalText base64.StdEncoding_Decode zero_PWHash (bytes_of_string josephine)
         = pwhash.UnmarshalBinary zero_PWHash
             (fst (base64.StdEncoding_Decode (bytes_of_string josephine)))).
Proof.
  destruct (text_decoding base64.StdEncoding_Decode) as (H1 & H2 & _).
  split; (split; [vm_compute; reflexivity|]).
  - apply (H1 zero_PWHash (bytes_of_string josephine_garbled)
              (fst (base64.StdEncoding_Decode (bytes_of_string josephine_garbled))) 84).
    vm_compute. reflexivity.
  - apply H2. vm_compute. reflexivity.
Defined.

(** The message the repository's tests expect for that input.  The bytes
    decoded before the failure are a whole record that [UnmarshalBinary]
    would accept; [UnmarshalText] does not hand them over. *)
Example josephine_garbled_message :
  pwhash.UnmarshalText base64.StdEncoding_Decode zero_PWHash (bytes_of_string josephine_garbled)
  = Returns (zero_PWHash,
             Some (Errorf "password encoding: " "illegal base64 data at input byte 84"))
  /\ exists pd,
      pwhash.UnmarshalBinary zero_PWHash
        (fst (base64.StdEncoding_Decode (bytes_of_string josephine_garbled)))
      = Returns (pd, None).
Proof. split; [|eexists]; vm_compute; reflexivity. Qed.

(** The test credential decodes to version 1, PRF 1, 10000 iterations, 16
    bytes of salt and 32 of subkey, and encodes back to the same bytes. *)
Example josephine_decodes :
  exists pd,
    pwhash.UnmarshalText base64.StdEncoding_Decode zero_PWHash (bytes_of_string josephine)
    = Returns (pd, None)
    /\ valid_PWHash pd = true
    /\ pwhash.iter pd = DefaultIter /\ len (pwhash.salt pd) = DefaultSaltLen
    /\ pwhash.MarshalBinary pd
       = Returns (fst (base64.StdEncoding_Decode (bytes_of_string josephine)), None).
Proof. eexists. repeat split; vm_compute; reflexivity. Qed.

Lemma VerifyHash_outcomes_witness :
  (pwdatav3.fromBase64 base64.StdEncoding_Decode josephine_garbled
   = Returns (None, Some (Errorf "pw data: " "illegal base64 data at input byte 84"))
   /\ forall kdf pw,
       result (pwdatav3.VerifyHash kdf base64.StdEncoding_Decode
                 (RandBytes (fun _ => Byte.x07)) josephine_garbled pw)
       = Returns (false, Some (Errorf "pw data: " "illegal base64 data at input byte 84")))
  /\ exists d,
      pwdatav3.fromBase64 base64.StdEncoding_Decode josephine = Returns (Some d, None)
      /\ forall kdf pw rnd,
          pwdatav3.VerifyHash kdf base64.StdEncoding_Decode rnd josephine pw
          = (ok <~ pwdatav3.VerifyPassword kdf d pw ;; tret (ok, None)).
Proof.
  split.
  - assert (H : pwdatav3.fromBase64 base64.StdEncoding_Decode josephine_garbled
                = Returns (None,
                           Some (Errorf "pw data: " "illegal base64 data at input byte 84")))
      by (vm_compute; reflexivity).
    split; [exact H|]. intros kdf pw.
    exact (proj2 (proj1 (VerifyHash_outcomes kdf base64.StdEncoding_Decode)
                    josephine_garbled pw _ (fun _ => Byte.x07) H)).
  - eexists. split; [vm_compute; reflexivity|]. intros kdf pw rnd.
    apply (proj2 (VerifyHash_outcomes kdf base64.StdEncoding_Decode)).
    vm_compute. reflexivity.
Defined.

(** The text "AQ==" is the base64 of the single byte 0x01, too short for a
    header: decoding it fails with [ErrCorrupt].  With a random source that
    cannot supply the salt, [VerifyHash] then panics: it does not return
    false together with the decoding error. *)
Lemma VerifyHash_decode_failure_panics :
  pwdatav3.fromBase64 base64.StdEncoding_Decode "AQ==" = Returns (None, Some ErrCorrupt)
  /\ forall kdf pw,
      result (pwdatav3.VerifyHash kdf base64.StdEncoding_Decode
                (RandFails "unexpected EOF") "AQ==" pw)
      = Panics (PanicError (Errorf "cannot make salt value: " "unexpected EOF"))
      /\ result (pwdatav3.VerifyHash kdf base64.StdEncoding_Decode
                   (RandFails "unexpected EOF") "AQ==" pw)
         <> Returns (false, Some ErrCorrupt).
Proof.
  assert (H : pwdatav3.fromBase64 base64.StdEncoding_Decode "AQ=="
              = Returns (None, Some ErrCorrupt)) by (vm_compute; reflexivity).
  split; [exact H|]. intros kdf pw.
  rewrite (VerifyHash_decode_failure_no_salt kdf base64.StdEncoding_Decode
             "AQ==" pw ErrCorrupt "unexpected EOF" H).
  split; [reflexivity|discriminate].
Qed.

Lemma VerifyHash_panics_witness :
  pwdatav3.fromBase64 base64.StdEncoding_Decode josephine_garbled
  = Returns (None, Some (Errorf "pw data: " "illegal base64 data at input byte 84"))
  /\ forall kdf pw,
      result (pwdatav3.VerifyHash kdf base64.StdEncoding_Decode
                (RandFails "entropy source closed") josephine_garbled pw)
      = Panics (PanicError (Errorf "cannot make salt value: " "entropy source closed")).
Proof.
  assert (H : pwdatav3.fromBase64 base64.StdEncoding_Decode josephine_garbled
              = Returns (None, Some (Errorf "pw data: " "illegal base64 data at input byte 84")))
    by (vm_compute; reflexivity).
  split; [exact H|]. intros kdf pw.
  exact (proj1 (VerifyHash_panics kdf base64.StdEncoding_Decode josephine_garbled pw _
                  "entropy source closed" H)).
Defined.

(** An iteration count that [uint32] cuts to 1 gives a record whose encoding
    [UnmarshalBinary] does not reject with [ErrParameter], and decodes to
    the record itself when the derived key has its 32 bytes. *)
Lemma New_count_cut_to_one
  (kdf : list byte -> list byte -> Z -> Z -> list byte)
  (stream : nat -> byte) (pw : string) (iter : Z) (pd : pwhash.PWHash) :
  uint32 iter = 1 ->
  exists r,
    result (pwhash.New kdf (RandBytes stream) pw iter) = Returns (Some r, None)
    /\ pwhash.iter r = 1
    /\ decode_encoded pd r <> Returns (pd, Some ErrParameter)
    /\ (len (pwhash.hash r) = 32 -> decode_encoded pd r = Returns (r, None)).
Proof.
  intros Hu. eexists. split; [reflexivity|]. split; [exact Hu|].
  unfold decode_encoded. rewrite MarshalBinary_layout. cbn [bind fst].
  cbn [pwhash.ver pwhash.prf pwhash.iter pwhash.salt pwhash.hash].
  rewrite (UnmarshalBinary_constructed pd _ _ _ (uint32_range _) (rand_salt_len stream)).
  rewrite Hu. cbn [Z.ltb Z.gtb Z.compare Pos.compare Pos.compare_cont orb].
  split.
  - destruct (negb _); discriminate.
  - intros ->. reflexivity.
Qed.

(** The [int] values 4294967297 = 2^32 + 1 and -4294967295 = 1 - 2^32 are
    outside [1, 100000], yet [New] stores [uint32(iter)] = 1 for both: the
    encoding of the record is not rejected with [ErrParameter]. *)
Lemma New_count_beyond_32_bits :
  let accepted := fun iter : Z =>
    is_int iter /\ ~ (1 <= iter <= 100000)
    /\ forall kdf stream pw pd,
        exists r,
          result (pwhash.New kdf (RandBytes stream) pw iter) = Returns (Some r, None)
          /\ pwhash.iter r = 1
          /\ decode_encoded pd r <> Returns (pd, Some ErrParameter)
          /\ (len (pwhash.hash r) = 32 -> decode_encoded pd r = Returns (r, None)) in
  accepted 4294967297 /\ accepted (-4294967295).
Proof.
  split; (split; [unfold is_int; lia|]); (split; [lia|]); intros kdf stream pw pd;
    now apply New_count_cut_to_one.
Qed.

Lemma constructors_keep_any_iteration_count_witness :
  ~ (1 <= uint32 0 <= 100000)
  /\ forall kdf pw,
      exists r,
        result (pwhash.New kdf (RandBytes (fun _ => Byte.x07)) pw 0) = Returns (Some r, None)
        /\ decode_encoded zero_PWHash r = Returns (zero_PWHash, Some ErrParameter).
Proof.
  assert (H : ~ (1 <= uint32 0 <= 100000)) by (vm_compute; intuition discriminate).
  split; [exact H|]. intros kdf pw.
  destruct (proj1 (constructors_keep_any_iteration_count kdf (fun _ => Byte.x07) pw 0
                     zero_PWHash)) as (r & Hr & _ & _ & _ & Hd).
  exists r. split; [exact Hr|]. apply Hd. exact H.
Defined.

End Concrete.

(** ** Where [unpack] departs from [UnmarshalBinary] *)

Section Departures.

(** What the checks of [UnmarshalBinary] amount to, on an input of at least
    a header (version 1 and PRF 1 read from it): [ErrParameter] exactly
    when the iteration count or the salt length is out of range, else
    [ErrCorrupt] exactly when the length, cut to 32 bits, is not
    13 + saltlen + 32. *)
Lemma UnmarshalBinary_checks (pd : pwhash.PWHash)
  (i0 i1 i2 i3 s0 s1 s2 s3 : byte) (body : list byte) :
  let iter := be_value i0 i1 i2 i3 in
  let saltlen := be_value s0 s1 s2 s3 in
  let a := Byte.x01 :: Byte.x00 :: Byte.x00 :: Byte.x00 :: Byte.x01
           :: i0 :: i1 :: i2 :: i3 :: s0 :: s1 :: s2 :: s3 :: body in
  (pwhash.UnmarshalBinary pd a = Returns (pd, Some ErrParameter)
   <-> ~ (1 <= iter <= 100000) \/ ~ (1 <= saltlen <= 64))
  /\ (1 <= iter <= 100000 -> 1 <= saltlen <= 64 ->
      (pwhash.UnmarshalBinary pd a = Returns (pd, Some ErrCorrupt)
       <-> uint32 (len a) <> 13 + saltlen + 32)
      /\ (uint32 (len a) = 13 + saltlen + 32 ->
          exists pd', pwhash.UnmarshalBinary pd a = Returns (pd', None))).
Proof.
  intros iter saltlen a. unfold a. rewrite UnmarshalBinary_cons. cbv zeta.
  fold iter saltlen.
  change (negb (byte.unsigned Byte.x01 =? v3)) with false.
  change (negb (be_value Byte.x00 Byte.x00 Byte.x00 Byte.x01 =? prfSHA256)) with false.
  cbv iota. rewrite !len_cons.
  replace (1 + (1 + (1 + (1 + (1 + (1 + (1 + (1 + (1 + (1 + (1 + (1 + (1 + len body)))))))))))))
    with (hdrLength + len body) by (unfold hdrLength; lia).
  destruct ((iter <? 1) || (iter >? 100000)) eqn:Hi.
  { apply out_of_range_iff in Hi. split; [tauto|lia]. }
  apply orb_false_elim in Hi. destruct Hi as [Hi1 Hi2].
  apply Z.ltb_ge in Hi1. rewrite Z.gtb_ltb in Hi2. apply Z.ltb_ge in Hi2.
  destruct ((saltlen <? 1) || (saltlen >? 64)) eqn:Hs.
  { apply orb_true_iff in Hs. rewrite Z.ltb_lt, Z.gtb_ltb, Z.ltb_lt in Hs.
    split; [split; [right|reflexivity]|]; lia. }
  apply orb_false_elim in Hs. destruct Hs as [Hs1 Hs2].
  apply Z.ltb_ge in Hs1. rewrite Z.gtb_ltb in Hs2. apply Z.ltb_ge in Hs2.
  rewrite (uint32_small (hdrLength + saltlen + sha256_Size))
    by (unfold hdrLength, sha256_Size; lia).
  change (hdrLength + saltlen + sha256_Size) with (13 + saltlen + 32).
  destruct (Z.eqb_spec (13 + saltlen + 32) (uint32 (hdrLength + len body))) as [E|N];
    cbn [negb].
  - split; [split; [discriminate|lia]|]. intros _ _. split.
    + split; [discriminate|]. intros N. now elim N.
    + eauto.
  - split; [split; [discriminate|lia]|]. intros _ _. split.
    + split; [congruence|reflexivity].
    + intros E. now elim N.
Qed.

(** On an input shorter than 2^32 bytes whose header passes the checks,
    [UnmarshalBinary] returns [ErrCorrupt] unless the input has exactly
    13 + saltlen + 32 bytes. *)
Lemma UnmarshalBinary_length_exact (pd : pwhash.PWHash)
  (i0 i1 i2 i3 s0 s1 s2 s3 : byte) (body : list byte) :
  let iter := be_value i0 i1 i2 i3 in
  let saltlen := be_value s0 s1 s2 s3 in
  let a := Byte.x01 :: Byte.x00 :: Byte.x00 :: Byte.x00 :: Byte.x01
           :: i0 :: i1 :: i2 :: i3 :: s0 :: s1 :: s2 :: s3 :: body in
  len a < 2 ^ 32 -> 1 <= iter <= 100000 -> 1 <= saltlen <= 64 ->
  (pwhash.UnmarshalBinary pd a = Returns (pd, Some ErrCorrupt)
   <-> len a <> 13 + saltlen + 32).
Proof.
  intros iter saltlen a Hlen Hi Hs.
  destruct (UnmarshalBinary_checks pd i0 i1 i2 i3 s0 s1 s2 s3 body) as [_ H].
  destruct (H Hi Hs) as [Hc _]. fold a iter saltlen in Hc.
  rewrite (uint32_small (len a)) in Hc by (pose proof (len_nonneg a); lia).
  exact Hc.
Qed.

(** C2 on [unpack]: a header (version 1, PRF 1, one iteration, salt length
    1), the salt byte and a single further byte make 15 bytes, not
    13 + 1 + 32; [unpack] accepts them and takes the one byte for the
    subkey, where [UnmarshalBinary] returns [ErrCorrupt]. *)
Example unpack_accepts_short_subkey :
  let a := map byte.of_Z [1; 0; 0; 0; 1; 0; 0; 0; 1; 0; 0; 0; 1; 238; 42] in
  len a <> 13 + 1 + 32
  /\ pwdatav3.unpack pwdatav3.zero a
     = Returns (pwdatav3.mkPWDataV3 Byte.x01 1 1 [Byte.xee] [Byte.x2a], None)
  /\ pwhash.UnmarshalBinary zero_PWHash a = Returns (zero_PWHash, Some ErrCorrupt).
Proof. repeat split; vm_compute; congruence. Qed.

(** C3 on [unpack]: an iteration count of 0, and a salt length of 0, pass
    its checks, where [UnmarshalBinary] returns [ErrParameter]. *)
Example unpack_accepts_zero_parameters :
  let no_iterations :=
    map byte.of_Z [1; 0; 0; 0; 1; 0; 0; 0; 0; 0; 0; 0; 1; 238] ++ sample_hash in
  let no_salt :=
    map byte.of_Z [1; 0; 0; 0; 1; 0; 0; 0; 1; 0; 0; 0; 0] ++ sample_hash in
  pwdatav3.unpack pwdatav3.zero no_iterations
  = Returns (pwdatav3.mkPWDataV3 Byte.x01 1 0 [Byte.xee] sample_hash, None)
  /\ pwhash.UnmarshalBinary zero_PWHash no_iterations
     = Returns (zero_PWHash, Some ErrParameter)
  /\ pwdatav3.unpack pwdatav3.zero no_salt
     = Returns (pwdatav3.mkPWDataV3 Byte.x01 1 1 [] sample_hash, None)
  /\ pwhash.UnmarshalBinary zero_PWHash no_salt
     = Returns (zero_PWHash, Some ErrParameter).
Proof. repeat split; vm_compute; reflexivity. Qed.

(** C4 on [unpack]: it assigns each header field to the receiver before
    checking it.  Into a valid record, thirteen bytes that start with
    version 2 are refused with [ErrVersion] and leave version 2 behind; a
    header with 100001 iterations is refused with [ErrParameter] and leaves
    100001 behind.  The fresh record [fromBase64] decodes into is changed
    the same way.  [UnmarshalBinary] leaves its receiver as it was. *)
Example unpack_overwrites_receiver_on_error :
  let bad_version := map byte.of_Z [2; 0; 0; 0; 0; 0; 0; 0; 0; 0; 0; 0; 0] in
  let bad_count := map byte.of_Z [1; 0; 0; 0; 1; 0; 1; 134; 161; 0; 0; 0; 1] in
  pwdatav3.unpack sample_PWDataV3 bad_version
  = Returns (pwdatav3.mkPWDataV3 Byte.x02 1 1 [Byte.xee] sample_hash, Some ErrVersion)
  /\ pwdatav3.unpack sample_PWDataV3 bad_count
     = Returns (pwdatav3.mkPWDataV3 Byte.x01 1 100001 [Byte.xee] sample_hash,
                Some ErrParameter)
  /\ pwdatav3.unpack pwdatav3.zero bad_count
     = Returns (pwdatav3.mkPWDataV3 Byte.x01 1 100001 [] [], Some ErrParameter)
  /\ pwhash.UnmarshalBinary sample_PWHash bad_version
     = Returns (sample_PWHash, Some ErrVersion)
  /\ pwhash.UnmarshalBinary sample_PWHash bad_count
     = Returns (sample_PWHash, Some ErrParameter).
Proof. repeat split; vm_compute; reflexivity. Qed.

(** Whatever [unpack] does to the header fields, on an error it leaves the
    salt and the subkey of the receiver alone. *)
Lemma unpack_error_keeps_salt_and_hash (d d' : pwdatav3.PWDataV3) (a : list byte) (e : error) :
  pwdatav3.unpack d a = Returns (d', Some e) ->
  pwdatav3.salt d' = pwdatav3.salt d /\ pwdatav3.hash d' = pwdatav3.hash d.
Proof.
  split_on_header a; destruct_checks; intros [= <- ?]; auto; discriminate.
Qed.

(** The table of [TestPWHash] for [UnmarshalBinary], its entries built
    from literals. *)
Example UnmarshalBinary_test_table :
  let run := fun bytes => pwhash.UnmarshalBinary zero_PWHash (map byte.of_Z bytes) in
  run [0; 0; 1; 2; 3; 4; 5; 6; 7; 8; 9; 10] = Returns (zero_PWHash, Some ErrCorrupt)
  /\ run [0; 0; 1; 2; 3; 4; 5; 6; 7; 8; 9; 10; 11] = Returns (zero_PWHash, Some ErrVersion)
  /\ run [1; 0; 0; 0; 0; 4; 5; 6; 7; 8; 9; 10; 11] = Returns (zero_PWHash, Some ErrFunction)
  /\ run [1; 0; 0; 0; 1; 4; 5; 6; 7; 8; 9; 10; 11] = Returns (zero_PWHash, Some ErrParameter)
  /\ run [1; 0; 0; 0; 1; 0; 0; 0; 0; 8; 9; 10; 11] = Returns (zero_PWHash, Some ErrParameter)
  /\ run [1; 0; 0; 0; 1; 0; 0; 0; 1; 8; 9; 10; 11] = Returns (zero_PWHash, Some ErrParameter)
  /\ run [1; 0; 0; 0; 1; 0; 0; 0; 1; 0; 0; 0; 1] = Returns (zero_PWHash, Some ErrCorrupt)
  /\ run [1; 0; 0; 0; 1; 0; 0; 0; 1; 0; 0; 0; 1; 238]
     = Returns (zero_PWHash, Some ErrCorrupt).
Proof. repeat split; vm_compute; reflexivity. Qed.

End Departures.

(** * Further properties of the code *)

(** ** The decoders on every input *)

Section Decoders.

Variable StdEncoding_Decode : list byte -> list byte * option CorruptInputError.

(** Settles a table of equivalences once every check of a decoder has been
    turned into a fact about integers. *)
Ltac settle :=
  repeat split; intros;
  repeat match goal with
         | H : exists _, _ |- _ => destruct H
         | H : _ /\ _ |- _ => destruct H
         end;
  try congruence; try lia; eauto.

(** X1. No decoder panics: on every byte sequence, of any length and
    content, [UnmarshalBinary] and [unpack] return (every index and slice
    they take is within bounds), and so do [UnmarshalText] and
    [fromBase64] on every text, whatever the base64 decoder yields. *)
Theorem decoders_never_panic :
  (forall (pd : pwhash.PWHash) (a : list byte),
      exists pd' e, pwhash.UnmarshalBinary pd a = Returns (pd', e))
  /\ (forall (d : pwdatav3.PWDataV3) (a : list byte),
      exists d' e, pwdatav3.unpack d a = Returns (d', e))
  /\ (forall (pd : pwhash.PWHash) (text : list byte),
      exists pd' e, pwhash.UnmarshalText StdEncoding_Decode pd text = Returns (pd', e))
  /\ (forall s : string,
      exists d e, pwdatav3.fromBase64 StdEncoding_Decode s = Returns (d, e)).
Proof.
  refine (conj _ (conj _ (conj _ _))).
  - apply UnmarshalBinary_returns.
  - apply unpack_returns.
  - intros pd text. unfold pwhash.UnmarshalText.
    destruct (StdEncoding_Decode text) as [out [e|]]; [eauto|apply UnmarshalBinary_returns].
  - intros s. destruct (fromBase64_cases StdEncoding_Decode s) as [[e ->]|[d ->]]; eauto.
Qed.

(** X2. A [PWHash] is unchanged by a failed decode: when [UnmarshalBinary]
    or [UnmarshalText] returns an error, whichever it is, the receiver
    holds what it held before the call. *)
Theorem PWHash_unchanged_on_error :
  (forall (pd pd' : pwhash.PWHash) (a : list byte) (e : error),
      pwhash.UnmarshalBinary pd a = Returns (pd', Some e) -> pd' = pd)
  /\ (forall (pd pd' : pwhash.PWHash) (text : list byte) (e : error),
      pwhash.UnmarshalText StdEncoding_Decode pd text = Returns (pd', Some e) -> pd' = pd).
Proof.
  split.
  - apply UnmarshalBinary_error_unchanged.
  - intros pd pd' text e. unfold pwhash.UnmarshalText.
    destruct (StdEncoding_Decode text) as [out [c|]].
    + congruence.
    + apply UnmarshalBinary_error_unchanged.
Qed.

(** X3. The checks of [UnmarshalBinary], in order.  An input shorter than
    the 13-byte header is [ErrCorrupt].  Otherwise the error is
    [ErrVersion] exactly when the first byte is not 1; [ErrFunction] exactly
    when the version is 1 and the PRF is not; [ErrParameter] exactly when
    both are 1 and the iteration count is outside [1, 100000] or the salt
    length outside [1, 64]; [ErrCorrupt] exactly when all of these pass and
    the length, cut to 32 bits, is not 13 + saltlen + 32; and a record is
    returned exactly when every check passes. *)
Theorem UnmarshalBinary_error_table :
  (forall (pd : pwhash.PWHash) (a : list byte),
      len a < 13 -> pwhash.UnmarshalBinary pd a = Returns (pd, Some ErrCorrupt))
  /\ forall (pd : pwhash.PWHash)
       (b0 p0 p1 p2 p3 i0 i1 i2 i3 s0 s1 s2 s3 : byte) (body : list byte),
      let prf := be_value p0 p1 p2 p3 in
      let iter := be_value i0 i1 i2 i3 in
      let saltlen := be_value s0 s1 s2 s3 in
      let a := b0 :: p0 :: p1 :: p2 :: p3 :: i0 :: i1 :: i2 :: i3
               :: s0 :: s1 :: s2 :: s3 :: body in
      let header_ok := byte.unsigned b0 = 1 /\ prf = 1 in
      let parameters_ok := 1 <= iter <= 100000 /\ 1 <= saltlen <= 64 in
      (pwhash.UnmarshalBinary pd a = Returns (pd, Some ErrVersion)
       <-> byte.unsigned b0 <> 1)
      /\ (pwhash.UnmarshalBinary pd a = Returns (pd, Some ErrFunction)
          <-> byte.unsigned b0 = 1 /\ prf <> 1)
      /\ (pwhash.UnmarshalBinary pd a = Returns (pd, Some ErrParameter)
          <-> header_ok /\ ~ parameters_ok)
      /\ (pwhash.UnmarshalBinary pd a = Returns (pd, Some ErrCorrupt)
          <-> header_ok /\ parameters_ok /\ uint32 (len a) <> 13 + saltlen + 32)
      /\ ((exists d, pwhash.UnmarshalBinary pd a = Returns (d, None))
          <-> header_ok /\ parameters_ok /\ uint32 (len a) = 13 + saltlen + 32).
Proof.
  split.
  - intros pd a H. unfold pwhash.UnmarshalBinary.
    now rewrite (proj2 (Z.ltb_lt (len a) hdrLength) H).
  - intros pd b0 p0 p1 p2 p3 i0 i1 i2 i3 s0 s1 s2 s3 body prf iter saltlen a
           header_ok parameters_ok.
    unfold a, header_ok, parameters_ok. rewrite UnmarshalBinary_cons. cbv zeta.
    fold prf iter saltlen. rewrite !len_cons.
    replace (1 + (1 + (1 + (1 + (1 + (1 + (1 + (1 + (1 + (1 + (1 + (1 + (1 + len body)))))))))))))
      with (hdrLength + len body) by (unfold hdrLength; lia).
    unfold v3, prfSHA256.
    destruct (Z.eqb_spec (byte.unsigned b0) 1) as [Ev|Ev]; cbn [negb]; [|settle].
    destruct (Z.eqb_spec prf 1) as [Ep|Ep]; cbn [negb]; [|settle].
    rewrite !Z.gtb_ltb.
    destruct (Z.ltb_spec iter 1); cbn [orb]; [settle|].
    destruct (Z.ltb_spec 100000 iter); cbn [orb]; [settle|].
    destruct (Z.ltb_spec saltlen 1); cbn [orb]; [settle|].
    destruct (Z.ltb_spec 64 saltlen); cbn [orb]; [settle|].
    rewrite (uint32_small (hdrLength + saltlen + sha256_Size))
      by (unfold hdrLength, sha256_Size; lia).
    change (hdrLength + saltlen + sha256_Size) with (13 + saltlen + 32).
    destruct (Z.eqb_spec (13 + saltlen + 32) (uint32 (hdrLength + len body))); cbn [negb];
      settle.
Qed.

(** X4. The checks of [unpack], in order.  They are those of
    [UnmarshalBinary] but for the bounds: [ErrParameter] exactly when the
    iteration count exceeds 100000 or the salt length exceeds 64 (0 passes),
    and [ErrCorrupt] exactly when the length, cut to 32 bits, is at most
    13 + saltlen: one byte after the salt is enough for a record. *)
Theorem unpack_error_table :
  (forall (d : pwdatav3.PWDataV3) (a : list byte),
      len a < 13 -> pwdatav3.unpack d a = Returns (d, Some ErrCorrupt))
  /\ forall (d : pwdatav3.PWDataV3)
       (b0 p0 p1 p2 p3 i0 i1 i2 i3 s0 s1 s2 s3 : byte) (body : list byte),
      let prf := be_value p0 p1 p2 p3 in
      let iter := be_value i0 i1 i2 i3 in
      let saltlen := be_value s0 s1 s2 s3 in
      let a := b0 :: p0 :: p1 :: p2 :: p3 :: i0 :: i1 :: i2 :: i3
               :: s0 :: s1 :: s2 :: s3 :: body in
      let header_ok := byte.unsigned b0 = 1 /\ prf = 1 in
      let parameters_ok := iter <= 100000 /\ saltlen <= 64 in
      ((exists d', pwdatav3.unpack d a = Returns (d', Some ErrVersion))
       <-> byte.unsigned b0 <> 1)
      /\ ((exists d', pwdatav3.unpack d a = Returns (d', Some ErrFunction))
          <-> byte.unsigned b0 = 1 /\ prf <> 1)
      /\ ((exists d', pwdatav3.unpack d a = Returns (d', Some ErrParameter))
          <-> header_ok /\ ~ parameters_ok)
      /\ ((exists d', pwdatav3.unpack d a = Returns (d', Some ErrCorrupt))
          <-> header_ok /\ parameters_ok /\ uint32 (len a) <= 13 + saltlen)
      /\ ((exists d', pwdatav3.unpack d a = Returns (d', None))
          <-> header_ok /\ parameters_ok /\ 13 + saltlen < uint32 (len a)).
Proof.
  split.
  - intros d a H. unfold pwdatav3.unpack.
    now rewrite (proj2 (Z.ltb_lt (len a) hdrLength) H).
  - intros d b0 p0 p1 p2 p3 i0 i1 i2 i3 s0 s1 s2 s3 body prf iter saltlen a
           header_ok parameters_ok.
    unfold a, header_ok, parameters_ok. rewrite unpack_cons. cbv zeta.
    fold prf iter saltlen. rewrite !len_cons.
    replace (1 + (1 + (1 + (1 + (1 + (1 + (1 + (1 + (1 + (1 + (1 + (1 + (1 + len body)))))))))))))
      with (hdrLength + len body) by (unfold hdrLength; lia).
    pose proof (be_value_range s0 s1 s2 s3) as Hr. fold saltlen in Hr.
    unfold v3, prfSHA256.
    destruct (Z.eqb_spec (byte.unsigned b0) 1) as [Ev|Ev]; cbn [negb]; [|settle].
    destruct (Z.eqb_spec prf 1) as [Ep|Ep]; cbn [negb]; [|settle].
    rewrite !Z.gtb_ltb.
    destruct (Z.ltb_spec 100000 iter); [settle|].
    destruct (Z.ltb_spec 64 saltlen); [settle|].
    rewrite (uint32_small (hdrLength + saltlen)) by (unfold hdrLength; lia).
    rewrite Z.geb_leb. change (hdrLength + saltlen) with (13 + saltlen).
    destruct (Z.leb_spec (uint32 (hdrLength + len body)) (13 + saltlen)); settle.
Qed.

End Decoders.

(** ** What the decoders accept and yield *)

Section Yields.

(** [unpack] on the layout of the fields it lets through. *)
Lemma unpack_layout_lax (d : pwdatav3.PWDataV3) ver prf iter salt hash :
  byte.unsigned ver = 1 -> prf = 1 -> 0 <= iter <= 100000 -> len salt <= 64 ->
  1 <= len hash -> hdrLength + len salt + len hash < 2 ^ 32 ->
  pwdatav3.unpack d (layout ver prf iter salt hash)
  = Returns (pwdatav3.mkPWDataV3 ver prf iter salt hash, None).
Proof.
  intros Hver Hprf Hit Hsl Hh Hlen. pose proof (len_nonneg salt) as Hn.
  unfold layout.
  pose proof (be_value_of_be32 prf) as Ep.
  pose proof (be_value_of_be32 iter) as Ei.
  pose proof (be_value_of_be32 (uint32 (len salt))) as Es.
  unfold be32 in *. cbn [app]. rewrite unpack_cons. cbv zeta.
  rewrite Ep, Ei, Es. clear Ep Ei Es.
  rewrite !(uint32_small (len salt)), (uint32_small prf), (uint32_small iter) by lia.
  rewrite Hver, Hprf. cbn [negb Z.eqb v3 prfSHA256 Pos.eqb].
  replace (iter >? 100000) with false by (symmetry; rewrite Z.gtb_ltb; apply Z.ltb_ge; lia).
  replace (len salt >? 64) with false
    by (symmetry; rewrite Z.gtb_ltb; apply Z.ltb_ge; lia).
  rewrite len_app.
  rewrite !uint32_small by (unfold hdrLength in *; lia).
  replace (hdrLength + len salt >=? hdrLength + (len salt + len hash)) with false
    by (symmetry; rewrite Z.geb_leb; apply Z.leb_gt; lia).
  now rewrite firstn_len_app, skipn_len_app.
Qed.

(** The fields of a record [unpack] yields. *)
Lemma unpack_yields (d0 d : pwdatav3.PWDataV3) (a : list byte) :
  pwdatav3.unpack d0 a = Returns (d, None) ->
  byte.unsigned (pwdatav3.ver d) = 1 /\ pwdatav3.prf d = 1
  /\ 0 <= pwdatav3.iter d <= 100000
  /\ len (pwdatav3.salt d) <= 64 /\ 1 <= len (pwdatav3.hash d).
Proof.
  intros H.
  assert (Hlen : hdrLength <= len a).
  { unfold pwdatav3.unpack in H. destruct (Z.ltb_spec (len a) hdrLength); [discriminate|lia]. }
  destruct (header_view a Hlen)
    as (b0 & p0 & p1 & p2 & p3 & i0 & i1 & i2 & i3 & s0 & s1 & s2 & s3 & body & ->).
  rewrite unpack_cons in H. cbv zeta in H.
  destruct (Z.eqb_spec (byte.unsigned b0) v3) as [Hv|]; [|discriminate].
  destruct (Z.eqb_spec (be_value p0 p1 p2 p3) prfSHA256) as [Hp|]; [|discriminate].
  cbn [negb] in H. rewrite !Z.gtb_ltb, Z.geb_leb in H.
  destruct (Z.ltb_spec 100000 (be_value i0 i1 i2 i3)) as [|Hi]; [discriminate|].
  destruct (Z.ltb_spec 64 (be_value s0 s1 s2 s3)) as [|Hs]; [discriminate|].
  destruct (Z.leb_spec (uint32 (hdrLength + len body)) (uint32 (hdrLength + be_value s0 s1 s2 s3)))
    as [|Hl]; [discriminate|].
  injection H as <-.
  cbn [pwdatav3.ver pwdatav3.prf pwdatav3.iter pwdatav3.salt pwdatav3.hash].
  pose proof (be_value_range i0 i1 i2 i3) as Hir.
  pose proof (be_value_range s0 s1 s2 s3) as Hr. pose proof (len_nonneg body) as Hb.
  rewrite (uint32_small (hdrLength + be_value s0 s1 s2 s3)) in Hl by (unfold hdrLength; lia).
  pose proof (Z.mod_le (hdrLength + len body) (2 ^ 32)) as Hm.
  assert (Hlt : be_value s0 s1 s2 s3 < len body) by (unfold uint32, hdrLength in *; lia).
  unfold len in *. rewrite length_firstn, length_skipn. unfold v3, prfSHA256 in *. lia.
Qed.

(** X5. Every record [UnmarshalBinary] yields from an input of fewer than
    2^32 bytes is valid (version 1, PRF 1, 1 to 100000 iterations, 1 to 64
    bytes of salt, a 32-byte subkey); the input has exactly
    13 + len(salt) + 32 bytes; and the same record is yielded whatever the
    receiver held. *)
Theorem UnmarshalBinary_yields_valid_record (pd d : pwhash.PWHash) (b : list byte) :
  len b < 2 ^ 32 ->
  pwhash.UnmarshalBinary pd b = Returns (d, None) ->
  valid_PWHash d = true
  /\ len b = 13 + len (pwhash.salt d) + 32
  /\ forall pd' : pwhash.PWHash, pwhash.UnmarshalBinary pd' b = Returns (d, None).
Proof.
  intros Hb H. pose proof (UnmarshalBinary_yields_valid pd d b Hb H) as Hv.
  pose proof (UnmarshalBinary_accepts pd d b H) as E.
  split; [exact Hv|]. split.
  - apply valid_fields_spec in Hv. destruct Hv as (_ & _ & _ & _ & Hh).
    rewrite E at 1. rewrite layout_len, Hh. reflexivity.
  - intros pd'. rewrite E. destruct d as [v p i s h]. now apply UnmarshalBinary_layout.
Qed.

(** X6. What [unpack] lets through.  Every record it yields has version 1,
    PRF 1, at most 100000 iterations (possibly none), a salt of at most 64
    bytes (possibly empty) and a subkey of at least one byte, of whatever
    length; the input is the 13-byte header, the salt and the subkey and
    nothing else; and the same record is yielded whatever the receiver
    held. *)
Theorem unpack_result_shape (d0 d : pwdatav3.PWDataV3) (a : list byte) :
  pwdatav3.unpack d0 a = Returns (d, None) ->
  byte.unsigned (pwdatav3.ver d) = 1 /\ pwdatav3.prf d = 1
  /\ 0 <= pwdatav3.iter d <= 100000
  /\ len (pwdatav3.salt d) <= 64 /\ 1 <= len (pwdatav3.hash d)
  /\ len a = 13 + len (pwdatav3.salt d) + len (pwdatav3.hash d)
  /\ forall d1 : pwdatav3.PWDataV3, pwdatav3.unpack d1 a = Returns (d, None).
Proof.
  intros H. destruct (unpack_yields d0 d a H) as (Hv & Hp & Hi & Hs & Hh).
  refine (conj Hv (conj Hp (conj Hi (conj Hs (conj Hh (conj _ _)))))).
  - rewrite (unpack_accepts d0 d a H) at 1. now rewrite layout_len.
  - intros d1. revert H. split_on_header a; [discriminate|].
    destruct_checks; try discriminate. trivial.
Qed.

(** X7. What a failed [unpack] leaves in its receiver: the header fields
    it read up to the failing check.  The salt and the subkey are never
    touched.  With [ErrVersion] the receiver holds the version read, which
    is not 1, and its former PRF and count; with [ErrFunction] version 1,
    the PRF read, which is not 1, and its former count; with [ErrParameter]
    version 1 and PRF 1; with [ErrCorrupt] it is either untouched (the input
    was shorter than a header) or holds version 1, PRF 1 and a count of at
    most 100000.  There is no other error. *)
Theorem unpack_error_receiver (d d' : pwdatav3.PWDataV3) (a : list byte) (e : error) :
  pwdatav3.unpack d a = Returns (d', Some e) ->
  pwdatav3.salt d' = pwdatav3.salt d /\ pwdatav3.hash d' = pwdatav3.hash d
  /\ match e with
     | ErrVersion =>
         byte.unsigned (pwdatav3.ver d') <> 1
         /\ pwdatav3.prf d' = pwdatav3.prf d /\ pwdatav3.iter d' = pwdatav3.iter d
     | ErrFunction =>
         byte.unsigned (pwdatav3.ver d') = 1 /\ pwdatav3.prf d' <> 1
         /\ pwdatav3.iter d' = pwdatav3.iter d
     | ErrParameter =>
         byte.unsigned (pwdatav3.ver d') = 1 /\ pwdatav3.prf d' = 1
     | ErrCorrupt =>
         (len a < 13 /\ d' = d)
         \/ (byte.unsigned (pwdatav3.ver d') = 1 /\ pwdatav3.prf d' = 1
             /\ pwdatav3.iter d' <= 100000)
     | Errorf _ _ => False
     end.
Proof.
  intros H. destruct (unpack_error_keeps_salt_and_hash d d' a e H) as [Hs Hh].
  refine (conj Hs (conj Hh _)). clear Hs Hh. revert H.
  split_on_header a.
  { intros [= <- <-]. left. unfold hdrLength in *. split; [lia|reflexivity]. }
  unfold v3, prfSHA256.
  destruct (Z.eqb_spec (byte.unsigned b0) 1); cbn [negb];
    [|intros [= <- <-]; cbn; auto].
  destruct (Z.eqb_spec (be_value p0 p1 p2 p3) 1); cbn [negb];
    [|intros [= <- <-]; cbn; auto].
  rewrite !Z.gtb_ltb.
  destruct (Z.ltb_spec 100000 (be_value i0 i1 i2 i3)); [intros [= <- <-]; cbn; auto|].
  destruct (Z.ltb_spec 64 (be_value s0 s1 s2 s3)); [intros [= <- <-]; cbn; auto|].
  destruct (_ >=? _); [|discriminate].
  intros [= <- <-]. cbn. right. auto.
Qed.

(** X8. [unpack] accepts every input [UnmarshalBinary] accepts, and reads
    the same five fields from it. *)
Theorem unpack_accepts_UnmarshalBinary_input
  (pd r : pwhash.PWHash) (d0 : pwdatav3.PWDataV3) (a : list byte) :
  pwhash.UnmarshalBinary pd a = Returns (r, None) ->
  pwdatav3.unpack d0 a
  = Returns (pwdatav3.mkPWDataV3 (pwhash.ver r) (pwhash.prf r) (pwhash.iter r)
                                 (pwhash.salt r) (pwhash.hash r), None).
Proof.
  intros H.
  assert (Hlen : hdrLength <= len a).
  { unfold pwhash.UnmarshalBinary in H. destruct (Z.ltb_spec (len a) hdrLength); [discriminate|lia]. }
  destruct (header_view a Hlen)
    as (b0 & p0 & p1 & p2 & p3 & i0 & i1 & i2 & i3 & s0 & s1 & s2 & s3 & body & ->).
  rewrite UnmarshalBinary_cons in H. rewrite unpack_cons. cbv zeta in *.
  destruct (negb (byte.unsigned b0 =? v3)); [discriminate|].
  destruct (negb (be_value p0 p1 p2 p3 =? prfSHA256)); [discriminate|].
  rewrite !Z.gtb_ltb in *. rewrite Z.geb_leb.
  destruct (Z.ltb_spec (be_value i0 i1 i2 i3) 1); [discriminate|].
  destruct (Z.ltb_spec 100000 (be_value i0 i1 i2 i3)); [discriminate|].
  destruct (Z.ltb_spec (be_value s0 s1 s2 s3) 1); [discriminate|].
  destruct (Z.ltb_spec 64 (be_value s0 s1 s2 s3)); [discriminate|].
  cbn [orb] in H.
  destruct (Z.eqb_spec (uint32 (hdrLength + be_value s0 s1 s2 s3 + sha256_Size))
                       (uint32 (hdrLength + len body))) as [E|]; [|discriminate].
  cbn [negb] in H. injection H as <-.
  cbn [pwhash.ver pwhash.prf pwhash.iter pwhash.salt pwhash.hash].
  rewrite <- E. rewrite !uint32_small by (unfold hdrLength, sha256_Size; lia).
  destruct (Z.leb_spec (hdrLength + be_value s0 s1 s2 s3 + sha256_Size)
                       (hdrLength + be_value s0 s1 s2 s3)); [unfold sha256_Size in *; lia|].
  reflexivity.
Qed.

(** X9. [New] of pwdatav3.go rebuilds every record [unpack] yields from the
    record's own salt, iteration count and subkey. *)
Theorem New_rebuilds_unpacked (d0 d : pwdatav3.PWDataV3) (a : list byte) :
  pwdatav3.unpack d0 a = Returns (d, None) ->
  pwdatav3.New (pwdatav3.salt d) (pwdatav3.iter d) (pwdatav3.hash d) = d.
Proof.
  intros H. destruct (unpack_yields d0 d a H) as (Hv & Hp & Hi & _).
  rewrite New_components, uint32_small by lia. destruct d as [v p i s h].
  cbn [pwdatav3.ver pwdatav3.prf pwdatav3.iter pwdatav3.salt pwdatav3.hash] in *.
  subst p. f_equal. apply byte.unsigned_inj. symmetry. exact Hv.
Qed.

(** X10. A record made by [New] of pwdatav3.go from a salt of at most 64
    bytes, a count from 0 to 100000 and a non-empty subkey (the whole
    shorter than 2^32 bytes) packs without fail, and [unpack] of the packed
    bytes returns the record, whatever the receiver held. *)
Theorem New_packs_and_unpacks (salt hash : list byte) (iter : Z) (d0 : pwdatav3.PWDataV3) :
  0 <= iter <= 100000 -> len salt <= 64 -> 1 <= len hash ->
  13 + len salt + len hash < 2 ^ 32 ->
  unpack_packed d0 (pwdatav3.New salt iter hash)
  = Returns (pwdatav3.New salt iter hash, None).
Proof.
  intros Hi Hs Hh Hl. unfold unpack_packed. rewrite pack_layout. cbn [bind].
  rewrite New_components.
  cbn [pwdatav3.ver pwdatav3.prf pwdatav3.iter pwdatav3.salt pwdatav3.hash].
  rewrite uint32_small by lia.
  apply unpack_layout_lax; try reflexivity; try lia. unfold hdrLength. lia.
Qed.

End Yields.

(** ** Encoding, text and verification *)

Section Credentials.

Variable pbkdf2_Key : list byte -> list byte -> Z -> Z -> list byte.
Variable StdEncoding_Decode : list byte -> list byte * option CorruptInputError.
Variable StdEncoding_Encode : list byte -> list byte.

Lemma be32_inj (v w : Z) :
  0 <= v < 2 ^ 32 -> 0 <= w < 2 ^ 32 -> be32 v = be32 w -> v = w.
Proof.
  intros Hv Hw E.
  pose proof (be_value_of_be32 v) as H1. pose proof (be_value_of_be32 w) as H2.
  rewrite E in H1. unfold be32 in H1, H2.
  rewrite <- (uint32_small v Hv), <- (uint32_small w Hw). congruence.
Qed.

Lemma app_len_inj (s1 s2 t1 t2 : list byte) :
  len s1 = len s2 -> s1 ++ t1 = s2 ++ t2 -> s1 = s2 /\ t1 = t2.
Proof.
  intros Hl E. split.
  - rewrite <- (firstn_len_app s1 t1), E, Hl. apply firstn_len_app.
  - rewrite <- (skipn_len_app s1 t1), E, Hl. apply skipn_len_app.
Qed.

(** Two layouts of [uint32] fields are equal only when the fields are. *)
Lemma layout_inj v1 p1 i1 s1 h1 v2 p2 i2 s2 h2 :
  uint32_fields p1 i1 s1 -> uint32_fields p2 i2 s2 ->
  layout v1 p1 i1 s1 h1 = layout v2 p2 i2 s2 h2 ->
  v1 = v2 /\ p1 = p2 /\ i1 = i2 /\ s1 = s2 /\ h1 = h2.
Proof.
  intros (Hp1 & Hi1 & Hs1) (Hp2 & Hi2 & Hs2) E. unfold layout in E.
  pose proof (len_nonneg s1). pose proof (len_nonneg s2).
  pose proof (f_equal (hd Byte.x00) E) as Ev. apply (f_equal (@tl byte)) in E.
  cbn [hd tl] in Ev, E.
  apply app_len_inj in E; [|now rewrite !len_be32]. destruct E as [Ep E].
  apply app_len_inj in E; [|now rewrite !len_be32]. destruct E as [Ei E].
  apply app_len_inj in E; [|now rewrite !len_be32]. destruct E as [El E].
  apply be32_inj in Ep, Ei, El; try lia; try apply uint32_range.
  rewrite !uint32_small in El by lia.
  apply app_len_inj in E; [|exact El]. destruct E as [Es Eh].
  now repeat split.
Qed.

Lemma MarshalText_layout (pd : pwhash.PWHash) :
  pwhash.MarshalText StdEncoding_Encode pd
  = Returns (StdEncoding_Encode (layout (pwhash.ver pd) (pwhash.prf pd) (pwhash.iter pd)
                                        (pwhash.salt pd) (pwhash.hash pd)), None).
Proof. unfold pwhash.MarshalText. now rewrite MarshalBinary_layout. Qed.

Lemma toBase64_layout (d : pwdatav3.PWDataV3) :
  pwdatav3.toBase64 StdEncoding_Encode d
  = Returns (string_of_list_byte
               (StdEncoding_Encode (layout (pwdatav3.ver d) (pwdatav3.prf d) (pwdatav3.iter d)
                                           (pwdatav3.salt d) (pwdatav3.hash d)))).
Proof. unfold pwdatav3.toBase64. now rewrite pack_layout. Qed.

(** X11. The encoders never fail, on any record, valid or not: every write
    of [MarshalBinary] and of [pack] lands inside the buffer they allocate,
    of 13 + len(salt) + len(hash) bytes, and [MarshalText], [toBase64] and
    both [String] methods return the base64 of those bytes and no error. *)
Theorem encoders_never_fail :
  (forall pd : pwhash.PWHash,
      exists out,
        pwhash.MarshalBinary pd = Returns (out, None)
        /\ len out = 13 + len (pwhash.salt pd) + len (pwhash.hash pd)
        /\ pwhash.MarshalText StdEncoding_Encode pd = Returns (StdEncoding_Encode out, None)
        /\ pwhash.String StdEncoding_Encode pd
           = Returns (string_of_list_byte (StdEncoding_Encode out)))
  /\ (forall d : pwdatav3.PWDataV3,
      exists out,
        pwdatav3.pack d = Returns out
        /\ len out = 13 + len (pwdatav3.salt d) + len (pwdatav3.hash d)
        /\ pwdatav3.toBase64 StdEncoding_Encode d
           = Returns (string_of_list_byte (StdEncoding_Encode out))
        /\ pwdatav3.String StdEncoding_Encode d
           = Returns (string_of_list_byte (StdEncoding_Encode out))).
Proof.
  split; intros r; eexists.
  - split; [apply MarshalBinary_layout|]. split; [now rewrite layout_len|].
    split; [apply MarshalText_layout|].
    unfold pwhash.String. now rewrite MarshalText_layout.
  - split; [apply pack_layout|]. split; [now rewrite layout_len|].
    split; apply toBase64_layout.
Qed.

(** X12. The binary encoding tells records apart: two records whose header
    fields are [uint32] values, with salts shorter than 2^32 bytes, and that
    differ in any field have different encodings, under [MarshalBinary] and
    under [pack]. *)
Theorem binary_encoding_injective :
  (forall r1 r2 : pwhash.PWHash,
      uint32_fields (pwhash.prf r1) (pwhash.iter r1) (pwhash.salt r1) ->
      uint32_fields (pwhash.prf r2) (pwhash.iter r2) (pwhash.salt r2) ->
      r1 <> r2 -> pwhash.MarshalBinary r1 <> pwhash.MarshalBinary r2)
  /\ (forall d1 d2 : pwdatav3.PWDataV3,
      uint32_fields (pwdatav3.prf d1) (pwdatav3.iter d1) (pwdatav3.salt d1) ->
      uint32_fields (pwdatav3.prf d2) (pwdatav3.iter d2) (pwdatav3.salt d2) ->
      d1 <> d2 -> pwdatav3.pack d1 <> pwdatav3.pack d2).
Proof.
  split; intros [v1 p1 i1 s1 h1] [v2 p2 i2 s2 h2] H1 H2 N E; apply N;
    rewrite ?MarshalBinary_layout, ?pack_layout in E;
    cbn [pwhash.ver pwhash.prf pwhash.iter pwhash.salt pwhash.hash
         pwdatav3.ver pwdatav3.prf pwdatav3.iter pwdatav3.salt pwdatav3.hash] in *;
    (assert (E' : layout v1 p1 i1 s1 h1 = layout v2 p2 i2 s2 h2) by congruence);
    destruct (layout_inj _ _ _ _ _ _ _ _ _ _ H1 H2 E') as (-> & -> & -> & -> & ->);
    reflexivity.
Qed.

(** X13. A credential verifies the password it was made from: for an
    iteration count that is a [uint32] value, the record [New] returns makes
    [Verify] return true on the same password, and the record
    [NewFromPassword] returns makes [VerifyPassword] return true. *)
Theorem New_then_Verify (stream : nat -> byte) (pw : string) (iter : Z) :
  0 <= iter < 2 ^ 32 ->
  (exists r,
      result (pwhash.New pbkdf2_Key (RandBytes stream) pw iter) = Returns (Some r, None)
      /\ result (pwhash.Verify pbkdf2_Key r pw) = Returns true)
  /\ (exists d,
      result (pwdatav3.NewFromPassword pbkdf2_Key (RandBytes stream) pw iter)
      = Returns (Some d, None)
      /\ result (pwdatav3.VerifyPassword pbkdf2_Key d pw) = Returns true).
Proof.
  intros Hi. split; eexists; (split; [reflexivity|]);
    cbn [result snd pwhash.Verify pwdatav3.VerifyPassword tbind tret
         pwhash.hashPW pwdatav3.hashPW constant_time_compare
         pwhash.salt pwhash.iter pwhash.hash pwdatav3.salt pwdatav3.iter pwdatav3.hash];
    unfold int_of_uint32; rewrite (uint32_small iter Hi), ConstantTimeCompare_refl;
    reflexivity.
Qed.


(** X15. [VerifyHash] says true only for a text that decodes to a record
    whose stored subkey is the key derived from the password with the
    record's salt and count; and then it returns no error. *)
Theorem VerifyHash_true_only_if
  (rnd : rand_source) (hash pw : string) (e : option error) :
  result (pwdatav3.VerifyHash pbkdf2_Key StdEncoding_Decode rnd hash pw) = Returns (true, e) ->
  e = None
  /\ exists d,
      pwdatav3.fromBase64 StdEncoding_Decode hash = Returns (Some d, None)
      /\ pbkdf2_Key (bytes_of_string pw) (pwdatav3.salt d) (pwdatav3.iter d) sha256_Size
         = pwdatav3.hash d.
Proof.
  unfold pwdatav3.VerifyHash.
  destruct (fromBase64_cases StdEncoding_Decode hash) as [[err ->]|[d ->]].
  - destruct rnd as [stream|message].
    + cbn. rewrite ConstantTimeCompare_refl. discriminate.
    + discriminate.
  - unfold pwdatav3.hashPW, constant_time_compare, int_of_uint32, lift, deref.
    cbn [tbind tret result snd].
    intros [= Hc <-]. split; [reflexivity|]. exists d. split; [reflexivity|].
    symmetry. now apply ConstantTimeCompare_eqb.
Qed.

(** X16. [VerifyHash] panics in one case only: the text does not decode and
    the random source fails, and then the panic carries the constructor's
    error.  It never dereferences a nil record and never indexes out of
    range; in every other case it returns. *)
Theorem VerifyHash_panics_exactly_when (rnd : rand_source) (hash pw : string) (p : panic) :
  result (pwdatav3.VerifyHash pbkdf2_Key StdEncoding_Decode rnd hash pw) = Panics p
  <-> exists message err,
        rnd = RandFails message
        /\ pwdatav3.fromBase64 StdEncoding_Decode hash = Returns (None, Some err)
        /\ p = PanicError (Errorf "cannot make salt value: " message).
Proof.
  unfold pwdatav3.VerifyHash.
  destruct (fromBase64_cases StdEncoding_Decode hash) as [[err ->]|[d ->]].
  - destruct rnd as [stream|message].
    + cbn. split; [discriminate|]. intros (m & e & Hr & _). discriminate.
    + cbn. split.
      * intros [= <-]. eauto.
      * intros (m & e & [= <-] & _ & ->). reflexivity.
  - cbn. split; [discriminate|]. intros (m & e & _ & He & _). discriminate.
Qed.

End Credentials.

(** ** Through the text encoding and back *)

Section Text.

Variable pbkdf2_Key : list byte -> list byte -> Z -> Z -> list byte.
Variable StdEncoding_Decode : list byte -> list byte * option CorruptInputError.
Variable StdEncoding_Encode : list byte -> list byte.

(** X17. Text round trip.  For a valid record whose binary encoding the
    base64 decoder gives back from the encoder's output, [UnmarshalText] of
    the text of [MarshalText] returns the record, whatever the receiver
    held, and [fromBase64] of the text of [toBase64] returns the record. *)
Theorem text_round_trip :
  (forall r pd : pwhash.PWHash,
      valid_PWHash r = true ->
      (let p := layout (pwhash.ver r) (pwhash.prf r) (pwhash.iter r)
                       (pwhash.salt r) (pwhash.hash r) in
       StdEncoding_Decode (StdEncoding_Encode p) = (p, None)) ->
      exists text,
        pwhash.MarshalText StdEncoding_Encode r = Returns (text, None)
        /\ pwhash.UnmarshalText StdEncoding_Decode pd text = Returns (r, None))
  /\ (forall d : pwdatav3.PWDataV3,
      valid_PWDataV3 d = true ->
      (let p := layout (pwdatav3.ver d) (pwdatav3.prf d) (pwdatav3.iter d)
                       (pwdatav3.salt d) (pwdatav3.hash d) in
       StdEncoding_Decode (StdEncoding_Encode p) = (p, None)) ->
      exists s,
        pwdatav3.toBase64 StdEncoding_Encode d = Returns s
        /\ pwdatav3.fromBase64 StdEncoding_Decode s = Returns (Some d, None)).
Proof.
  split.
  - intros [v p i s h] pd Hv Hd. eexists. split; [apply MarshalText_layout|].
    cbv zeta in Hd. unfold pwhash.UnmarshalText. rewrite Hd.
    now apply UnmarshalBinary_layout.
  - intros [v p i s h] Hv Hd. eexists. split; [apply toBase64_layout|].
    cbv zeta in Hd. unfold pwdatav3.fromBase64, bytes_of_string.
    rewrite list_byte_of_string_of_list_byte, Hd.
    cbn [pwdatav3.ver pwdatav3.prf pwdatav3.iter pwdatav3.salt pwdatav3.hash].
    now rewrite (unpack_layout pwdatav3.zero v p i s h Hv).
Qed.

(** X18. Encoding what was decoded gives the text back, as the tests of
    the repository expect: when a text decodes to a record and the base64
    encoder maps the decoded bytes to that text (the text is canonical
    base64), [MarshalText] and [String] of the record return the text. *)
Theorem decoded_text_encodes_back :
  (forall (pd r : pwhash.PWHash) (text : list byte),
      pwhash.UnmarshalText StdEncoding_Decode pd text = Returns (r, None) ->
      StdEncoding_Encode (fst (StdEncoding_Decode text)) = text ->
      pwhash.MarshalText StdEncoding_Encode r = Returns (text, None)
      /\ pwhash.String StdEncoding_Encode r = Returns (string_of_list_byte text))
  /\ (forall (d : pwdatav3.PWDataV3) (s : string),
      pwdatav3.fromBase64 StdEncoding_Decode s = Returns (Some d, None) ->
      StdEncoding_Encode (fst (StdEncoding_Decode (bytes_of_string s))) = bytes_of_string s ->
      pwdatav3.toBase64 StdEncoding_Encode d = Returns s
      /\ pwdatav3.String StdEncoding_Encode d = Returns s).
Proof.
  split.
  - intros pd r text H E. unfold pwhash.UnmarshalText in H. unfold pwhash.String.
    rewrite MarshalText_layout.
    destruct (StdEncoding_Decode text) as [out [e|]]; [discriminate|].
    cbn [fst] in E. apply UnmarshalBinary_accepts in H. rewrite <- H, E.
    split; reflexivity.
  - intros d s H E. unfold pwdatav3.fromBase64 in H. unfold pwdatav3.String.
    rewrite toBase64_layout.
    destruct (StdEncoding_Decode (bytes_of_string s)) as [out [e|]]; [discriminate|].
    cbn [fst] in E.
    destruct (pwdatav3.unpack pwdatav3.zero out) as [[d' [e|]]|p] eqn:Hu; try discriminate.
    cbn [bind] in H. injection H as ->. apply unpack_accepts in Hu.
    rewrite <- Hu, E. unfold bytes_of_string. rewrite string_of_list_byte_of_string.
    split; reflexivity.
Qed.

(** X19. From password to text and back to a verdict.  With a working
    random source, 1 to 100000 iterations (from 0 for pwdatav3.go), a
    derived key of 32 bytes and a base64 decoder that gives back the
    record's bytes from the encoder's output: the text of the record [New]
    returns decodes to that record, which is valid and verifies the
    password; and [VerifyHash] on the text of the record of
    [NewFromPassword] returns true and no error, whatever the random source
    does by then. *)
Theorem password_to_text_to_verdict
  (stream : nat -> byte) (rnd : rand_source) (pw : string) (iter : Z) (pd : pwhash.PWHash) :
  let salt := map stream (seq 0 16) in
  let dk := pbkdf2_Key (bytes_of_string pw) salt iter sha256_Size in
  let p := layout Byte.x01 1 iter salt dk in
  0 <= iter <= 100000 -> len dk = 32 ->
  StdEncoding_Decode (StdEncoding_Encode p) = (p, None) ->
  (1 <= iter ->
   exists r text,
     result (pwhash.New pbkdf2_Key (RandBytes stream) pw iter) = Returns (Some r, None)
     /\ valid_PWHash r = true
     /\ pwhash.MarshalText StdEncoding_Encode r = Returns (text, None)
     /\ pwhash.UnmarshalText StdEncoding_Decode pd text = Returns (r, None)
     /\ result (pwhash.Verify pbkdf2_Key r pw) = Returns true)
  /\ (exists d s,
      result (pwdatav3.NewFromPassword pbkdf2_Key (RandBytes stream) pw iter)
      = Returns (Some d, None)
      /\ pwdatav3.String StdEncoding_Encode d = Returns s
      /\ result (pwdatav3.VerifyHash pbkdf2_Key StdEncoding_Decode rnd s pw)
         = Returns (true, None)).
Proof.
  intros salt dk p Hi Hk Hd.
  assert (Hu : uint32 iter = iter) by (apply uint32_small; lia).
  split.
  - intros H1. do 2 eexists. split; [reflexivity|].
    cbn [pwhash.hashPW tbind tret fst snd]. change (map stream (seq 0 (List.length (make DefaultSaltLen)))) with salt. fold dk.
    change (byte.of_Z v3) with Byte.x01. change prfSHA256 with 1. rewrite Hu.
    assert (Hv : valid_fields Byte.x01 1 iter salt dk = true).
    { unfold valid_fields. rewrite Hk. change (len salt) with 16.
      rewrite !andb_true_iff, !Z.eqb_eq, !Z.leb_le. cbn. lia. }
    split; [exact Hv|]. split; [apply MarshalText_layout|].
    cbn [pwhash.ver pwhash.prf pwhash.iter pwhash.salt pwhash.hash]. fold p.
    split.
    + unfold pwhash.UnmarshalText. rewrite Hd. now apply UnmarshalBinary_layout.
    + cbn [result snd pwhash.Verify tbind tret pwhash.hashPW constant_time_compare
           pwhash.salt pwhash.iter pwhash.hash].
      unfold int_of_uint32. fold dk. now rewrite ConstantTimeCompare_refl.
  - do 2 eexists. split; [reflexivity|].
    cbn [pwdatav3.hashPW tbind tret fst snd]. change (map stream (seq 0 (List.length (make DefaultSaltLen)))) with salt. fold dk.
    change (byte.of_Z v3) with Byte.x01. change prfSHA256 with 1. rewrite Hu.
    split; [apply toBase64_layout|].
    cbn [pwdatav3.ver pwdatav3.prf pwdatav3.iter pwdatav3.salt pwdatav3.hash]. fold p.
    unfold pwdatav3.VerifyHash, pwdatav3.fromBase64, bytes_of_string.
    rewrite list_byte_of_string_of_list_byte, Hd.
    unfold p. rewrite unpack_layout_lax; try reflexivity; try lia;
      [|change (len salt) with 16; lia
       |rewrite Hk; change (len salt) with 16; unfold hdrLength; lia].
    cbn [bind lift deref tbind tret result snd pwdatav3.hashPW constant_time_compare
         pwdatav3.salt pwdatav3.iter pwdatav3.hash].
    unfold int_of_uint32. fold dk. now rewrite ConstantTimeCompare_refl.
Qed.

End Text.

(** ** Inputs of 2^32 bytes and more *)

Section Lengths.

(** X20. [UnmarshalBinary] compares the expected length with
    [uint32(len(a))], the length cut to 32 bits: after a header and a salt
    that pass the checks it accepts not only 32 further bytes but
    32 + k * 2^32 of them, for every k, and takes them all for the subkey.
    For k >= 1 the record it yields is not valid, its subkey being longer
    than 32 bytes. *)
Theorem UnmarshalBinary_length_cut_to_32_bits
  (pd : pwhash.PWHash) (ver : byte) (prf iter : Z) (salt hash : list byte) (k : Z) :
  byte.unsigned ver = 1 -> prf = 1 -> 1 <= iter <= 100000 -> 1 <= len salt <= 64 ->
  len hash = 32 + k * 2 ^ 32 ->
  pwhash.UnmarshalBinary pd (layout ver prf iter salt hash)
  = Returns (pwhash.mkPWHash ver prf iter salt hash, None)
  /\ (1 <= k -> valid_PWHash (pwhash.mkPWHash ver prf iter salt hash) = false).
Proof.
  intros Hver Hprf Hit Hsl Hh. split.
  - unfold layout.
    pose proof (be_value_of_be32 prf) as Ep.
    pose proof (be_value_of_be32 iter) as Ei.
    pose proof (be_value_of_be32 (uint32 (len salt))) as Es.
    unfold be32 in *. cbn [app]. rewrite UnmarshalBinary_cons. cbv zeta.
    rewrite Ep, Ei, Es. clear Ep Ei Es.
    rewrite !(uint32_small (len salt)), (uint32_small prf), (uint32_small iter) by lia.
    rewrite Hver, Hprf. cbn [negb Z.eqb v3 prfSHA256 Pos.eqb].
    replace (iter <? 1) with false by (symmetry; apply Z.ltb_ge; lia).
    replace (iter >? 100000) with false by (symmetry; rewrite Z.gtb_ltb; apply Z.ltb_ge; lia).
    replace (len salt <? 1) with false by (symmetry; apply Z.ltb_ge; lia).
    replace (len salt >? 64) with false
      by (symmetry; rewrite Z.gtb_ltb; apply Z.ltb_ge; lia).
    cbn [orb]. rewrite len_app, Hh.
    replace (hdrLength + (len salt + (32 + k * 2 ^ 32)))
      with (hdrLength + len salt + sha256_Size + k * 2 ^ 32)
      by (unfold sha256_Size; lia).
    unfold uint32 at 2. rewrite Z.mod_add by lia. fold (uint32 (hdrLength + len salt + sha256_Size)).
    rewrite Z.eqb_refl. cbn [negb].
    now rewrite firstn_len_app, skipn_len_app.
  - intros Hk. unfold valid_PWHash, valid_fields.
    cbn [pwhash.ver pwhash.prf pwhash.iter pwhash.salt pwhash.hash].
    replace (len hash =? 32) with false by (symmetry; apply Z.eqb_neq; lia).
    apply andb_false_r.
Qed.

End Lengths.

(** ** The further properties on concrete inputs

    The base64 codec is the model of Go's; the key derivation is
    [sample_kdf]; the random source yields the byte 7. *)

Section Samples.

Lemma PWHash_unchanged_on_error_witness :
  let bad_count := map byte.of_Z [1; 0; 0; 0; 1; 0; 1; 134; 161; 0; 0; 0; 1] in
  pwhash.UnmarshalBinary sample_PWHash bad_count = Returns (sample_PWHash, Some ErrParameter)
  /\ sample_PWHash = sample_PWHash.
Proof.
  intros bad_count.
  assert (H : pwhash.UnmarshalBinary sample_PWHash bad_count
              = Returns (sample_PWHash, Some ErrParameter)) by (vm_compute; reflexivity).
  split; [exact H|].
  exact (proj1 (PWHash_unchanged_on_error base64.StdEncoding_Decode) _ _ _ _ H).
Defined.

Lemma UnmarshalBinary_yields_valid_record_witness :
  len sample_bytes < 2 ^ 32
  /\ pwhash.UnmarshalBinary zero_PWHash sample_bytes = Returns (sample_PWHash, None)
  /\ valid_PWHash sample_PWHash = true
  /\ len sample_bytes = 13 + len (pwhash.salt sample_PWHash) + 32
  /\ forall pd' : pwhash.PWHash,
      pwhash.UnmarshalBinary pd' sample_bytes = Returns (sample_PWHash, None).
Proof.
  assert (H1 : len sample_bytes < 2 ^ 32) by (vm_compute; reflexivity).
  assert (H2 : pwhash.UnmarshalBinary zero_PWHash sample_bytes = Returns (sample_PWHash, None))
    by (vm_compute; reflexivity).
  exact (conj H1 (conj H2 (UnmarshalBinary_yields_valid_record _ _ _ H1 H2))).
Defined.

Lemma unpack_result_shape_witness :
  let a := map byte.of_Z [1; 0; 0; 0; 1; 0; 0; 0; 0; 0; 0; 0; 0; 42] in
  let d := pwdatav3.mkPWDataV3 Byte.x01 1 0 [] [Byte.x2a] in
  pwdatav3.unpack sample_PWDataV3 a = Returns (d, None)
  /\ byte.unsigned (pwdatav3.ver d) = 1 /\ pwdatav3.prf d = 1
  /\ 0 <= pwdatav3.iter d <= 100000
  /\ len (pwdatav3.salt d) <= 64 /\ 1 <= len (pwdatav3.hash d)
  /\ len a = 13 + len (pwdatav3.salt d) + len (pwdatav3.hash d)
  /\ forall d1 : pwdatav3.PWDataV3, pwdatav3.unpack d1 a = Returns (d, None).
Proof.
  intros a d.
  assert (H : pwdatav3.unpack sample_PWDataV3 a = Returns (d, None))
    by (vm_compute; reflexivity).
  exact (conj H (unpack_result_shape _ _ _ H)).
Defined.

Lemma unpack_error_receiver_witness :
  let bad_count := map byte.of_Z [1; 0; 0; 0; 1; 0; 1; 134; 161; 0; 0; 0; 1] in
  let d' := pwdatav3.mkPWDataV3 Byte.x01 1 100001 [Byte.xee] sample_hash in
  pwdatav3.unpack sample_PWDataV3 bad_count = Returns (d', Some ErrParameter)
  /\ pwdatav3.salt d' = pwdatav3.salt sample_PWDataV3
  /\ pwdatav3.hash d' = pwdatav3.hash sample_PWDataV3
  /\ byte.unsigned (pwdatav3.ver d') = 1 /\ pwdatav3.prf d' = 1.
Proof.
  intros bad_count d'.
  assert (H : pwdatav3.unpack sample_PWDataV3 bad_count = Returns (d', Some ErrParameter))
    by (vm_compute; reflexivity).
  exact (conj H (unpack_error_receiver _ _ _ _ H)).
Defined.

Lemma unpack_accepts_UnmarshalBinary_input_witness :
  pwhash.UnmarshalBinary zero_PWHash sample_bytes = Returns (sample_PWHash, None)
  /\ pwdatav3.unpack pwdatav3.zero sample_bytes
     = Returns (pwdatav3.mkPWDataV3 (pwhash.ver sample_PWHash) (pwhash.prf sample_PWHash)
                                    (pwhash.iter sample_PWHash) (pwhash.salt sample_PWHash)
                                    (pwhash.hash sample_PWHash), None).
Proof.
  assert (H : pwhash.UnmarshalBinary zero_PWHash sample_bytes = Returns (sample_PWHash, None))
    by (vm_compute; reflexivity).
  exact (conj H (unpack_accepts_UnmarshalBinary_input _ _ pwdatav3.zero _ H)).
Defined.

Lemma New_rebuilds_unpacked_witness :
  let a := map byte.of_Z [1; 0; 0; 0; 1; 0; 0; 0; 1; 0; 0; 0; 1; 238; 42] in
  let d := pwdatav3.mkPWDataV3 Byte.x01 1 1 [Byte.xee] [Byte.x2a] in
  pwdatav3.unpack pwdatav3.zero a = Returns (d, None)
  /\ pwdatav3.New (pwdatav3.salt d) (pwdatav3.iter d) (pwdatav3.hash d) = d.
Proof.
  intros a d.
  assert (H : pwdatav3.unpack pwdatav3.zero a = Returns (d, None))
    by (vm_compute; reflexivity).
  exact (conj H (New_rebuilds_unpacked _ _ _ H)).
Defined.

Lemma New_packs_and_unpacks_witness :
  (0 <= 0 <= 100000 /\ len (@nil byte) <= 64 /\ 1 <= len [Byte.x2a]
   /\ 13 + len (@nil byte) + len [Byte.x2a] < 2 ^ 32)
  /\ unpack_packed sample_PWDataV3 (pwdatav3.New [] 0 [Byte.x2a])
     = Returns (pwdatav3.New [] 0 [Byte.x2a], None).
Proof.
  assert (H1 : 0 <= 0 <= 100000) by lia.
  assert (H2 : len (@nil byte) <= 64) by (vm_compute; discriminate).
  assert (H3 : 1 <= len [Byte.x2a]) by (vm_compute; discriminate).
  assert (H4 : 13 + len (@nil byte) + len [Byte.x2a] < 2 ^ 32) by (vm_compute; reflexivity).
  exact (conj (conj H1 (conj H2 (conj H3 H4)))
              (New_packs_and_unpacks [] [Byte.x2a] 0 sample_PWDataV3 H1 H2 H3 H4)).
Defined.

Lemma binary_encoding_injective_witness :
  let other := pwhash.mkPWHash Byte.x01 1 2 [Byte.xee] sample_hash in
  uint32_fields (pwhash.prf sample_PWHash) (pwhash.iter sample_PWHash)
                (pwhash.salt sample_PWHash)
  /\ uint32_fields (pwhash.prf other) (pwhash.iter other) (pwhash.salt other)
  /\ sample_PWHash <> other
  /\ pwhash.MarshalBinary sample_PWHash <> pwhash.MarshalBinary other.
Proof.
  intros other.
  assert (H1 : uint32_fields (pwhash.prf sample_PWHash) (pwhash.iter sample_PWHash)
                             (pwhash.salt sample_PWHash))
    by (repeat split; vm_compute; congruence).
  assert (H2 : uint32_fields (pwhash.prf other) (pwhash.iter other) (pwhash.salt other))
    by (repeat split; vm_compute; congruence).
  assert (H3 : sample_PWHash <> other) by discriminate.
  exact (conj H1 (conj H2 (conj H3 (proj1 binary_encoding_injective _ _ H1 H2 H3)))).
Defined.

Lemma New_then_Verify_witness :
  0 <= DefaultIter < 2 ^ 32
  /\ forall kdf pw,
      (exists r,
          result (pwhash.New kdf (RandBytes (fun _ => Byte.x07)) pw DefaultIter)
          = Returns (Some r, None)
          /\ result (pwhash.Verify kdf r pw) = Returns true)
      /\ (exists d,
          result (pwdatav3.NewFromPassword kdf (RandBytes (fun _ => Byte.x07)) pw DefaultIter)
          = Returns (Some d, None)
          /\ result (pwdatav3.VerifyPassword kdf d pw) = Returns true).
Proof.
  assert (H : 0 <= DefaultIter < 2 ^ 32) by (unfold DefaultIter; lia).
  split; [exact H|]. intros kdf pw.
  exact (New_then_Verify kdf (fun _ => Byte.x07) pw DefaultIter H).
Defined.


Lemma VerifyHash_true_only_if_witness :
  result (pwdatav3.VerifyHash sample_kdf base64.StdEncoding_Decode
            (RandFails "unexpected EOF") sample_text "secret") = Returns (true, None)
  /\ @None error = None
  /\ exists d,
      pwdatav3.fromBase64 base64.StdEncoding_Decode sample_text = Returns (Some d, None)
      /\ sample_kdf (bytes_of_string "secret") (pwdatav3.salt d) (pwdatav3.iter d) sha256_Size
         = pwdatav3.hash d.
Proof.
  assert (H : result (pwdatav3.VerifyHash sample_kdf base64.StdEncoding_Decode
                        (RandFails "unexpected EOF") sample_text "secret")
              = Returns (true, None)) by (vm_compute; reflexivity).
  exact (conj H (VerifyHash_true_only_if sample_kdf base64.StdEncoding_Decode
                   (RandFails "unexpected EOF") sample_text "secret" None H)).
Defined.

Lemma text_round_trip_witness :
  (valid_PWHash sample_PWHash = true
   /\ base64.StdEncoding_Decode (base64.StdEncoding_Encode sample_bytes) = (sample_bytes, None)
   /\ exists text,
       pwhash.MarshalText base64.StdEncoding_Encode sample_PWHash = Returns (text, None)
       /\ pwhash.UnmarshalText base64.StdEncoding_Decode zero_PWHash text
          = Returns (sample_PWHash, None))
  /\ (valid_PWDataV3 sample_PWDataV3 = true
      /\ exists s,
          pwdatav3.toBase64 base64.StdEncoding_Encode sample_PWDataV3 = Returns s
          /\ pwdatav3.fromBase64 base64.StdEncoding_Decode s
             = Returns (Some sample_PWDataV3, None)).
Proof.
  destruct (text_round_trip base64.StdEncoding_Decode base64.StdEncoding_Encode) as [H1 H2].
  split.
  - split; [reflexivity|]. split; [vm_compute; reflexivity|].
    apply H1; [reflexivity|vm_compute; reflexivity].
  - split; [reflexivity|]. apply H2; [reflexivity|vm_compute; reflexivity].
Defined.

Lemma decoded_text_encodes_back_witness :
  exists d,
    pwdatav3.fromBase64 base64.StdEncoding_Decode josephine = Returns (Some d, None)
    /\ base64.StdEncoding_Encode
         (fst (base64.StdEncoding_Decode (bytes_of_string josephine)))
       = bytes_of_string josephine
    /\ pwdatav3.toBase64 base64.StdEncoding_Encode d = Returns josephine
    /\ pwdatav3.String base64.StdEncoding_Encode d = Returns josephine.
Proof.
  eexists.
  refine ((fun H1 H2 =>
             conj H1 (conj H2
               (proj2 (decoded_text_encodes_back base64.StdEncoding_Decode
                         base64.StdEncoding_Encode) _ josephine H1 H2))) _ _);
    vm_compute; reflexivity.
Defined.

Lemma password_to_text_to_verdict_witness :
  let stream := fun _ : nat => Byte.x07 in
  let salt := map stream (seq 0 16) in
  let dk := sample_kdf (bytes_of_string "secret") salt 1 sha256_Size in
  let p := layout Byte.x01 1 1 salt dk in
  (0 <= 1 <= 100000 /\ len dk = 32
   /\ base64.StdEncoding_Decode (base64.StdEncoding_Encode p) = (p, None))
  /\ (exists r text,
         result (pwhash.New sample_kdf (RandBytes stream) "secret" 1) = Returns (Some r, None)
         /\ valid_PWHash r = true
         /\ pwhash.MarshalText base64.StdEncoding_Encode r = Returns (text, None)
         /\ pwhash.UnmarshalText base64.StdEncoding_Decode zero_PWHash text
            = Returns (r, None)
         /\ result (pwhash.Verify sample_kdf r "secret") = Returns true)
  /\ (exists d s,
         result (pwdatav3.NewFromPassword sample_kdf (RandBytes stream) "secret" 1)
         = Returns (Some d, None)
         /\ pwdatav3.String base64.StdEncoding_Encode d = Returns s
         /\ result (pwdatav3.VerifyHash sample_kdf base64.StdEncoding_Decode
                      (RandFails "unexpected EOF") s "secret")
            = Returns (true, None)).
Proof.
  intros stream salt dk p.
  assert (H1 : 0 <= 1 <= 100000) by lia.
  assert (H2 : len dk = 32) by (vm_compute; reflexivity).
  assert (H3 : base64.StdEncoding_Decode (base64.StdEncoding_Encode p) = (p, None))
    by (vm_compute; reflexivity).
  destruct (password_to_text_to_verdict sample_kdf base64.StdEncoding_Decode
              base64.StdEncoding_Encode stream (RandFails "unexpected EOF") "secret" 1
              zero_PWHash H1 H2 H3) as [Ha Hb].
  split; [exact (conj H1 (conj H2 H3))|]. split; [apply Ha; lia|exact Hb].
Defined.

Lemma UnmarshalBinary_length_cut_to_32_bits_witness :
  let subkey := make (2 ^ 32 + 32) in
  let r := pwhash.mkPWHash Byte.x01 1 1 [Byte.xee] subkey in
  (byte.unsigned Byte.x01 = 1 /\ 1 <= len [Byte.xee] <= 64 /\ len subkey = 32 + 1 * 2 ^ 32)
  /\ pwhash.UnmarshalBinary zero_PWHash (layout Byte.x01 1 1 [Byte.xee] subkey)
     = Returns (r, None)
  /\ valid_PWHash r = false.
Proof.
  intros subkey r.
  assert (H1 : byte.unsigned Byte.x01 = 1) by reflexivity.
  assert (H2 : 1 <= len [Byte.xee] <= 64) by (change (len [Byte.xee]) with 1; lia).
  assert (H3 : len subkey = 32 + 1 * 2 ^ 32).
  { unfold subkey, make, len. rewrite repeat_length, Z2Nat.id; lia. }
  assert (Hi : 1 <= 1 <= 100000) by lia.
  destruct (UnmarshalBinary_length_cut_to_32_bits zero_PWHash Byte.x01 1 1 [Byte.xee] subkey 1
              H1 eq_refl Hi H2 H3) as [Ha Hb].
  split; [exact (conj H1 (conj H2 H3))|]. split; [exact Ha|apply Hb; lia].
Defined.

End Samples.
